(** * FaceIt: the expression timeline of [animate/animate_operators.py]

    A shallow embedding of the side / mirror-name helpers and of the
    operators that keep the expression list and the keyframes of its
    actions in step (add, move, remove, clear, force zero frames, export
    and import of [.face] files), followed by the properties proved
    about them.  The file has three parts: the embedding, the vocabulary
    of the statements, and the properties.

    Conventions of the embedding.
    - Expression names, data paths and file paths are [string]s.  [lower]
      maps [A-Z] to [a-z] and leaves every other character unchanged.
    - A keyframe is the pair [co = (frame, value)].  Frames are integers
      ([Z]): what the operators compute with them ([+ 10], [- 10],
      [+- 10 / 2]) is exact on integer frames.  Values are rationals.
    - [bpy.data.actions] is looked up under three fixed names only; the
      session holds one optional action per name.  The files on disk are
      an association list from path to parsed content.
    - An operator run yields the set it returns or the exception that
      ends it, its reports, and the session as it leaves it.
    - Calls into the host application that touch neither the expression
      list nor the three actions are left out, and the armature is taken
      to exist.  Helpers of the add-on that live outside this file
      ([fc_dr_utils], [a_utils], [futils], [detection_manager],
      [corrective_shape_keys_utils]) are the fields of the class
      [Addon]; the operators are parametrised by it. *)

From Stdlib Require Import ZArith QArith Bool List String Ascii Lia Permutation.
Import ListNotations.
Open Scope string_scope.

(** ** Python string primitives *)

Module PyStr.

Definition is_upper (c : ascii) : bool :=
  ((65 <=? nat_of_ascii c) && (nat_of_ascii c <=? 90))%nat.

Definition is_lower (c : ascii) : bool :=
  ((97 <=? nat_of_ascii c) && (nat_of_ascii c <=? 122))%nat.

Definition lower_char (c : ascii) : ascii :=
  if is_upper c then ascii_of_nat (nat_of_ascii c + 32) else c.

(** [s.lower()] *)
Fixpoint lower (s : string) : string :=
  match s with
  | EmptyString => EmptyString
  | String c s' => String (lower_char c) (lower s')
  end.

(** [s.startswith(p)] *)
Fixpoint startswith (p s : string) : bool :=
  match p, s with
  | EmptyString, _ => true
  | String a p', String b s' => Ascii.eqb a b && startswith p' s'
  | String _ _, EmptyString => false
  end.

(** [sub in s] *)
Fixpoint contains (sub s : string) : bool :=
  startswith sub s
  || match s with
     | EmptyString => false
     | String _ s' => contains sub s'
     end.

(** [s.endswith(suf)] *)
Fixpoint endswith (s suf : string) : bool :=
  String.eqb s suf
  || match s with
     | EmptyString => false
     | String _ s' => endswith s' suf
     end.

(** [s[:-1]] *)
Fixpoint drop_last (s : string) : string :=
  match s with
  | EmptyString => EmptyString
  | String c EmptyString => EmptyString
  | String c s' => String c (drop_last s')
  end.

(** [s[-1].islower()], for a non-empty [s] *)
Fixpoint last_islower (s : string) : bool :=
  match s with
  | EmptyString => false
  | String c EmptyString => is_lower c
  | String _ s' => last_islower s'
  end.

(** [s.replace(old, new)] for a non-empty [old]: the occurrences of [old]
    are found from left to right and do not overlap; [skip] counts the
    characters of a match that are still to be dropped. *)
Fixpoint replace_from (old new : string) (skip : nat) (s : string) : string :=
  match s with
  | EmptyString => EmptyString
  | String c s' =>
      match skip with
      | S k => replace_from old new k s'
      | O =>
          if startswith old s
          then new ++ replace_from old new (String.length old - 1) s'
          else String c (replace_from old new 0 s')
      end
  end.

Definition replace (s old new : string) : string := replace_from old new 0 s.

(** [s.find(sub)]: the lowest index at which [sub] starts, [-1] if none. *)
Fixpoint find_from (sub s : string) (pos : Z) : Z :=
  if startswith sub s then pos
  else match s with
       | EmptyString => (-1)%Z
       | String _ s' => find_from sub s' (pos + 1)%Z
       end.

Definition find (sub s : string) : Z := find_from sub s 0%Z.

(** [s[a:b]], with Python's treatment of negative and oversized bounds. *)
Definition slice_bound (len x : Z) : Z :=
  if (x <? 0)%Z then Z.max 0 (x + len) else Z.min x len.

Definition slice (s : string) (a b : Z) : string :=
  let len := Z.of_nat (String.length s) in
  let a' := slice_bound len a in
  let b' := slice_bound len b in
  if (a' <? b')%Z then String.substring (Z.to_nat a') (Z.to_nat (b' - a')) s
  else EmptyString.

(** The double-quote character, as a one-character string. *)
Definition dquote : string := String (ascii_of_nat 34) EmptyString.

End PyStr.

Import PyStr.

(** ** Side and mirror name (module-level functions) *)

Definition get_side (expression_name : string) : string :=
  if contains "left" (lower expression_name)
     || endswith (lower expression_name) "_l"
     || endswith expression_name "L"
  then "L"
  else if contains "right" (lower expression_name)
          || endswith (lower expression_name) "_r"
          || endswith expression_name "R"
  then "R"
  else "N".

Definition poll_side_in_expression_name (side expression_name : string) : bool :=
  if String.eqb side "L" then
    contains "left" (lower expression_name)
    || endswith (lower expression_name) "_l"
    || endswith expression_name "L"
  else if String.eqb side "R" then
    contains "right" (lower expression_name)
    || endswith (lower expression_name) "_r"
    || endswith expression_name "R"
  else false.

Definition get_mirror_name (side expression_name : string) : string :=
  if String.eqb side "L" then
    if contains "Left" expression_name then replace expression_name "Left" "Right"
    else if contains "left" expression_name then replace expression_name "left" "right"
    else if contains "LEFT" expression_name then replace expression_name "LEFT" "RIGHT"
    else if endswith (lower expression_name) "_l" then
      if last_islower expression_name
      then drop_last expression_name ++ "r"
      else drop_last expression_name ++ "R"
    else if endswith expression_name "L" then drop_last expression_name ++ "R"
    else ""
  else if String.eqb side "R" then
    if contains "Right" expression_name then replace expression_name "Right" "Left"
    else if contains "right" expression_name then replace expression_name "right" "left"
    else if contains "RIGHT" expression_name then replace expression_name "RIGHT" "LEFT"
    else if endswith (lower expression_name) "_r" then
      if last_islower expression_name
      then drop_last expression_name ++ "l"
      else drop_last expression_name ++ "L"
    else if endswith expression_name "R" then drop_last expression_name ++ "L"
    else ""
  else "".


(** ** Data model *)

(** [PROCEDURAL_EXPRESSION_ITEMS] of [properties/animate_scene_properties.py] *)
Inductive Procedural : Set := NONE | EYEBLINKS | MOUTHCLOSE.

Definition Procedural_eqb (a b : Procedural) : bool :=
  match a, b with
  | NONE, NONE | EYEBLINKS, EYEBLINKS | MOUTHCLOSE, MOUTHCLOSE => true
  | _, _ => false
  end.

Definition Procedural_to_string (p : Procedural) : string :=
  match p with
  | NONE => "NONE"
  | EYEBLINKS => "EYEBLINKS"
  | MOUTHCLOSE => "MOUTHCLOSE"
  end.

(** Assigning a string to an enum property: an identifier that is not
    one of the items raises [TypeError]. *)
Definition Procedural_of_string (s : string) : option Procedural :=
  if String.eqb s "NONE" then Some NONE
  else if String.eqb s "EYEBLINKS" then Some EYEBLINKS
  else if String.eqb s "MOUTHCLOSE" then Some MOUTHCLOSE
  else None.

(** The items of the [side] enum property of the operators. *)
Definition side_enum_valid (s : string) : bool :=
  String.eqb s "L" || String.eqb s "N" || String.eqb s "R".

(** [Anim_Properties]: one item of [scene.faceit_expression_list]. *)
Record Expression : Set := mkExpression {
  name : string;
  side : string;
  frame : Z;
  index : Z;
  mirror_name : string;
  corr_shape_key : bool;
  procedural : Procedural
}.

Definition set_frame (f : Z) (e : Expression) : Expression :=
  mkExpression (name e) (side e) f (index e) (mirror_name e)
               (corr_shape_key e) (procedural e).

Definition set_mirror_name (m : string) (e : Expression) : Expression :=
  mkExpression (name e) (side e) (frame e) (index e) m
               (corr_shape_key e) (procedural e).

Definition set_corr_shape_key (b : bool) (e : Expression) : Expression :=
  mkExpression (name e) (side e) (frame e) (index e) (mirror_name e)
               b (procedural e).

(** A keyframe point: [co0 = key.co[0]] is the frame, [co1 = key.co[1]]
    the value. *)
Record Keyframe : Set := mkKey { co0 : Z; co1 : Q }.

Definition set_co0 (f : Z) (k : Keyframe) : Keyframe := mkKey f (co1 k).

Record FCurve : Set := mkFCurve {
  data_path : string;
  array_index : Z;
  keyframe_points : list Keyframe
}.

Definition set_keyframe_points (ks : list Keyframe) (fc : FCurve) : FCurve :=
  mkFCurve (data_path fc) (array_index fc) ks.

(** An action is the sequence [action.fcurves]. *)
Definition Action : Set := list FCurve.

(** The names under which the operators look actions up in
    [bpy.data.actions]. *)
Inductive ActionName : Set :=
| overwrite_shape_action_name   (* 'overwrite_shape_action' *)
| faceit_shape_action_name      (* 'faceit_shape_action' *)
| CORRECTIVE_SK_ACTION_NAME.

(** The content of a [.face] file, as [json.load] returns it.  JSON
    objects are association lists in file order; a key that is absent is
    [None]. *)
Record ExpressionData : Set := mkExpressionData {
  data_mirror_name : option string;
  data_side : option string;
  data_procedural : option string
}.

Record FaceFile : Set := mkFaceFile {
  file_action_scale : list Q;
  file_eye_dimensions : list Q;
  file_expressions : list (string * ExpressionData);
  file_action : list (string * list (Z * list Keyframe))
}.

(** The part of the session the operators read and write. *)
Record Blend : Set := mkBlend {
  faceit_expression_list : list Expression;
  faceit_expression_list_index : Z;
  frame_start : Z;
  frame_end : Z;
  use_keyframe_insert_auto : bool;
  overwrite_shape_action : option Action;
  faceit_shape_action : option Action;
  corrective_sk_action : option Action;
  rig_action : option ActionName;     (* rig.animation_data.action *)
  disk : list (string * FaceFile)     (* the files that exist *)
}.

Definition with_expression_list (l : list Expression) (b : Blend) : Blend :=
  mkBlend l (faceit_expression_list_index b) (frame_start b) (frame_end b)
          (use_keyframe_insert_auto b) (overwrite_shape_action b)
          (faceit_shape_action b) (corrective_sk_action b) (rig_action b) (disk b).

Definition with_list_index (i : Z) (b : Blend) : Blend :=
  mkBlend (faceit_expression_list b) i (frame_start b) (frame_end b)
          (use_keyframe_insert_auto b) (overwrite_shape_action b)
          (faceit_shape_action b) (corrective_sk_action b) (rig_action b) (disk b).

Definition with_frame_range (r : Z * Z) (b : Blend) : Blend :=
  mkBlend (faceit_expression_list b) (faceit_expression_list_index b) (fst r) (snd r)
          (use_keyframe_insert_auto b) (overwrite_shape_action b)
          (faceit_shape_action b) (corrective_sk_action b) (rig_action b) (disk b).

Definition with_auto_key (k : bool) (b : Blend) : Blend :=
  mkBlend (faceit_expression_list b) (faceit_expression_list_index b)
          (frame_start b) (frame_end b) k (overwrite_shape_action b)
          (faceit_shape_action b) (corrective_sk_action b) (rig_action b) (disk b).

Definition with_ow_action (a : option Action) (b : Blend) : Blend :=
  mkBlend (faceit_expression_list b) (faceit_expression_list_index b)
          (frame_start b) (frame_end b) (use_keyframe_insert_auto b) a
          (faceit_shape_action b) (corrective_sk_action b) (rig_action b) (disk b).

Definition with_shape_action (a : option Action) (b : Blend) : Blend :=
  mkBlend (faceit_expression_list b) (faceit_expression_list_index b)
          (frame_start b) (frame_end b) (use_keyframe_insert_auto b)
          (overwrite_shape_action b) a (corrective_sk_action b) (rig_action b) (disk b).

Definition with_cc_action (a : option Action) (b : Blend) : Blend :=
  mkBlend (faceit_expression_list b) (faceit_expression_list_index b)
          (frame_start b) (frame_end b) (use_keyframe_insert_auto b)
          (overwrite_shape_action b) (faceit_shape_action b) a (rig_action b) (disk b).

Definition with_rig_action (r : option ActionName) (b : Blend) : Blend :=
  mkBlend (faceit_expression_list b) (faceit_expression_list_index b)
          (frame_start b) (frame_end b) (use_keyframe_insert_auto b)
          (overwrite_shape_action b) (faceit_shape_action b)
          (corrective_sk_action b) r (disk b).

Definition with_disk (d : list (string * FaceFile)) (b : Blend) : Blend :=
  mkBlend (faceit_expression_list b) (faceit_expression_list_index b)
          (frame_start b) (frame_end b) (use_keyframe_insert_auto b)
          (overwrite_shape_action b) (faceit_shape_action b)
          (corrective_sk_action b) (rig_action b) d.

(** [bpy.data.actions.get(name)] and assignment under a name. *)
Definition actions_get (n : ActionName) (b : Blend) : option Action :=
  match n with
  | overwrite_shape_action_name => overwrite_shape_action b
  | faceit_shape_action_name => faceit_shape_action b
  | CORRECTIVE_SK_ACTION_NAME => corrective_sk_action b
  end.

Definition actions_set (n : ActionName) (a : option Action) (b : Blend) : Blend :=
  match n with
  | overwrite_shape_action_name => with_ow_action a b
  | faceit_shape_action_name => with_shape_action a b
  | CORRECTIVE_SK_ACTION_NAME => with_cc_action a b
  end.

(** What running an operator yields: the set it returns or the exception
    that ends it, the messages passed to [self.report], and the session
    as the operator leaves it. *)
Inductive Status : Set := FINISHED | CANCELLED.

Inductive Outcome : Set :=
| Returned (s : Status)
| Raised (exception : string).

Record Run : Set := mkRun {
  outcome : Outcome;
  reports : list (string * string);
  final : Blend
}.

Definition finished (b : Blend) : Run := mkRun (Returned FINISHED) [] b.
Definition cancelled (b : Blend) : Run := mkRun (Returned CANCELLED) [] b.
Definition raised (e : string) (b : Blend) : Run := mkRun (Raised e) [] b.

(** ** Collections of the host *)

Module Collection.

(** [collection[i]] for an integer [i]: negative indices count from the
    end, anything out of range raises [IndexError] ([None]). *)
Definition get {A : Type} (l : list A) (i : Z) : option A :=
  let n := Z.of_nat (List.length l) in
  if (0 <=? i)%Z && (i <? n)%Z then nth_error l (Z.to_nat i)
  else if (- n <=? i)%Z && (i <? 0)%Z then nth_error l (Z.to_nat (i + n))
  else None.

(** [expression_list.find(name)]: the index of the first item of that
    name, [-1] when there is none. *)
Fixpoint find (key : string) (l : list Expression) : Z :=
  match l with
  | [] => (-1)%Z
  | e :: l' =>
      if String.eqb (name e) key then 0%Z
      else let r := find key l' in
           if (r <? 0)%Z then (-1)%Z else (r + 1)%Z
  end.

(** [expression_list.get(name)] / [expression_list[name]] *)
Fixpoint get_named (key : string) (l : list Expression) : option Expression :=
  match l with
  | [] => None
  | e :: l' => if String.eqb (name e) key then Some e else get_named key l'
  end.

Fixpoint remove_at {A : Type} (i : nat) (l : list A) : list A :=
  match l, i with
  | [], _ => []
  | _ :: l', O => l'
  | x :: l', S i' => x :: remove_at i' l'
  end.

(** [collection.remove(i)]: nothing happens out of range. *)
Definition remove {A : Type} (i : Z) (l : list A) : list A :=
  if (0 <=? i)%Z then remove_at (Z.to_nat i) l else l.

Fixpoint insert_at {A : Type} (i : nat) (x : A) (l : list A) : list A :=
  match i, l with
  | O, _ => x :: l
  | S i', [] => [x]
  | S i', y :: l' => y :: insert_at i' x l'
  end.

(** [collection.move(src, dst)]: the item at [src] is taken out and put
    back at [dst]; nothing happens unless both are valid and differ. *)
Definition move {A : Type} (src dst : Z) (l : list A) : list A :=
  let n := Z.of_nat (List.length l) in
  if (0 <=? src)%Z && (src <? n)%Z && (0 <=? dst)%Z && (dst <? n)%Z
     && negb (src =? dst)%Z
  then match nth_error l (Z.to_nat src) with
       | Some x => insert_at (Z.to_nat dst) x (remove_at (Z.to_nat src) l)
       | None => l
       end
  else l.

(** Replace the item at position [i]. *)
Fixpoint update_at {A : Type} (i : nat) (f : A -> A) (l : list A) : list A :=
  match l, i with
  | [], _ => []
  | x :: l', O => f x :: l'
  | x :: l', S i' => x :: update_at i' f l'
  end.

End Collection.

(** ** F-curves of the host *)

Module FCurves.

(** [fc.update()] puts the keyframes in chronological order; keys on the
    same frame keep their relative order. *)
Fixpoint insert_sorted (k : Keyframe) (l : list Keyframe) : list Keyframe :=
  match l with
  | [] => [k]
  | x :: l' => if (co0 k <=? co0 x)%Z then k :: l else x :: insert_sorted k l'
  end.

Definition sort_keys (l : list Keyframe) : list Keyframe :=
  fold_right insert_sorted [] l.

Definition update (fc : FCurve) : FCurve :=
  set_keyframe_points (sort_keys (keyframe_points fc)) fc.

(** [fc.keyframe_points.insert(frame, value)]: a key already on that
    frame takes the new value, otherwise a key is added in front of the
    first later one. *)
Fixpoint insert (f : Z) (v : Q) (l : list Keyframe) : list Keyframe :=
  match l with
  | [] => [mkKey f v]
  | k :: l' =>
      if (co0 k =? f)%Z then mkKey f v :: l'
      else if (f <? co0 k)%Z then mkKey f v :: k :: l'
      else k :: insert f v l'
  end.

(** [action.fcurves.find(data_path)] (array index 0): the position of
    the first such curve. *)
Fixpoint find (dp : string) (a : Action) : option nat :=
  match a with
  | [] => None
  | fc :: a' =>
      if String.eqb (data_path fc) dp && (array_index fc =? 0)%Z then Some O
      else option_map S (find dp a')
  end.

End FCurves.

(** [sorted(list(set(xs)))] on integers. *)
Fixpoint insert_uniq (x : Z) (l : list Z) : list Z :=
  match l with
  | [] => [x]
  | y :: l' =>
      if (x <? y)%Z then x :: l
      else if (x =? y)%Z then l
      else y :: insert_uniq x l'
  end.

Definition sorted_set (xs : list Z) : list Z := fold_right insert_uniq [] xs.

(** Assignment [d[k] = v] on a dict kept in insertion order. *)
Fixpoint dict_set {K V : Type} (eqb : K -> K -> bool) (k : K) (v : V)
         (d : list (K * V)) : list (K * V) :=
  match d with
  | [] => [(k, v)]
  | (k', v') :: d' =>
      if eqb k' k then (k', v) :: d' else (k', v') :: dict_set eqb k v d'
  end.

Fixpoint dict_get {K V : Type} (eqb : K -> K -> bool) (k : K)
         (d : list (K * V)) : option V :=
  match d with
  | [] => None
  | (k', v') :: d' => if eqb k' k then Some v' else dict_get eqb k d'
  end.

(** ** Helpers of the add-on defined outside [animate_operators.py]

    Their code is not part of the development; every operator is
    parametrised by them. *)
Class Addon : Type := {
  (** [core.detection_manager] *)
  get_expression_name_double_entries : string -> list Expression -> string;
  (** [core.fc_dr_utils]: the curve of [(dp, array_index)] in an action,
      created when missing; the result is the action and the position of
      that curve in it. *)
  get_fcurve_from_bpy_struct : Action -> string -> Z -> Action * nat;
  populate_keyframe_points_from_np_array : FCurve -> list Keyframe -> FCurve;
  kf_data_to_numpy_array : FCurve -> list Keyframe;
  (** [core.faceit_utils] *)
  get_action_frame_range : Action -> Z * Z;
  (** [animate.animate_utils] *)
  add_expression_keyframes : Z -> Action -> Action;
  create_overwrite_animation : Action -> Action;
  scale_poses_to_new_dimensions_slow :
    list Q -> list string -> list Z -> Action -> Action;
  scale_action_to_rig : Action -> list Q -> list string -> list Z -> Action;
  scale_eye_animation : list Q -> Action -> Action;
  get_eye_dimensions : list Q;
  (** the pose written by the procedural operators at a frame, on the
      overwrite action and its backup *)
  eye_blink_pose : string -> bool -> Z -> Action * Action -> Action * Action;
  mouth_close_pose : Z -> Z -> Action * Action -> Action * Action;
  (** [shape_keys.corrective_shape_keys_utils]: the [corr_shape_key]
      flag each expression is left with *)
  reevaluate_corrective_shape_keys : list Expression -> Expression -> bool;
  clear_all_corrective_shape_keys : list Expression -> Expression -> bool;
  (** the armature: names of its pose bones, its dimensions, and the
      keys [bpy.ops.anim.keyframe_insert] writes for the selected bones
      at a frame *)
  pose_bones : list string;
  rig_dimensions : list Q;
  keyframe_insert_rest_pose : Z -> Action -> Action;
  (** [core.faceit_data] *)
  get_expression_presets : string
}.

(** Sequencing of operator runs: an exception ends the caller too. *)
Definition and_then (r : Run) (k : Blend -> Run) : Run :=
  match outcome r with
  | Returned _ => k (final r)
  | Raised _ => r
  end.

Definition option_default {A : Type} (d : A) (o : option A) : A :=
  match o with
  | Some a => a
  | None => d
  end.

Definition is_some {A : Type} (o : option A) : bool :=
  match o with
  | Some _ => true
  | None => false
  end.

(** ** Operators *)

(** [FACEIT_OT_ClearFaceitExpressions] *)
Module FACEIT_OT_ClearFaceitExpressions.

Definition execute (st : Blend) : Run :=
  let st := with_expression_list [] st in
  let st := with_list_index (-1)%Z st in
  let shape_action := faceit_shape_action st in
  let ow_action := overwrite_shape_action st in
  let st := if is_some shape_action then with_shape_action None st else st in
  let st := if is_some ow_action then with_ow_action None st else st in
  (* rig.animation_data.action = None; the corrective action is only
     unlinked from the shape keys, it stays in bpy.data.actions *)
  let st := with_rig_action None st in
  finished st.

End FACEIT_OT_ClearFaceitExpressions.

(** [FACEIT_OT_MoveExpressionItem] *)
Module FACEIT_OT_MoveExpressionItem.

Inductive Direction : Set := UP | DOWN.

Definition poll (st : Blend) : bool :=
  let idx := faceit_expression_list_index st in
  let expression_list := faceit_expression_list st in
  negb (Nat.eqb (List.length expression_list) 0)
  && (0 <=? idx)%Z && (idx <? Z.of_nat (List.length expression_list))%Z.

Definition move_index (direction : Direction) (flist : list Expression)
           (index : Z) (st : Blend) : Blend :=
  let list_length := (Z.of_nat (List.length flist) - 1)%Z in
  let new_index := (index + match direction with UP => -1 | DOWN => 1 end)%Z in
  with_list_index (Z.max 0 (Z.min new_index list_length)) st.

(** The three passes over [curve.keyframe_points]. *)
Definition move_keys (new_index_frame expression_frame add_frame : Z)
           (keys : list Keyframe) : list Keyframe :=
  let keys :=
    map (fun key => if (co0 key =? new_index_frame)%Z
                    then set_co0 (co0 key - add_frame / 2)%Z key else key) keys in
  let keys :=
    map (fun key => if (co0 key =? expression_frame)%Z
                    then set_co0 (co0 key + add_frame)%Z key else key) keys in
  map (fun key => if (co0 key =? new_index_frame - add_frame / 2)%Z
                  then set_co0 (co0 key - add_frame / 2)%Z key else key) keys.

Definition move_action (new_index_frame expression_frame add_frame : Z)
           (action : Action) : Action :=
  map (fun curve =>
         FCurves.update
           (set_keyframe_points
              (move_keys new_index_frame expression_frame add_frame
                         (keyframe_points curve)) curve))
      action.

Definition cc_data_path (expression_name : string) : string :=
  "key_blocks[" ++ dquote ++ "faceit_cc_" ++ expression_name ++ dquote ++ "].value".

Definition shift_all (delta : Z) (fc : FCurve) : FCurve :=
  FCurves.update
    (set_keyframe_points
       (map (fun key => set_co0 (co0 key + delta)%Z key) (keyframe_points fc)) fc).

Definition shift_cc_curve (expression_name : string) (delta : Z)
           (cc_action : Action) : Action :=
  match FCurves.find (cc_data_path expression_name) cc_action with
  | Some i => Collection.update_at i (shift_all delta) cc_action
  | None => cc_action
  end.

(** The position an integer index designates in a list of length [n]. *)
Definition position (n : nat) (i : Z) : nat :=
  if (i <? 0)%Z then Z.to_nat (i + Z.of_nat n) else Z.to_nat i.

Definition execute (direction : Direction) (st : Blend) : Run :=
  let index := faceit_expression_list_index st in
  let expression_list := faceit_expression_list st in
  match Collection.get expression_list index with
  | None => raised "IndexError" st
  | Some expression_item =>
      let add_index := match direction with UP => (-1)%Z | DOWN => 1%Z end in
      let new_index := (index + add_index)%Z in
      let add_frame := (add_index * 10)%Z in
      if (new_index =? Z.of_nat (List.length expression_list))%Z
         || (new_index =? -1)%Z
      then cancelled st
      else
        match Collection.get expression_list new_index with
        | None => raised "IndexError" st
        | Some new_index_item =>
            let expression_frame := frame expression_item in
            let new_index_frame := frame new_index_item in
            let move := move_action new_index_frame expression_frame add_frame in
            let st := with_ow_action (option_map move (overwrite_shape_action st)) st in
            let st := with_shape_action (option_map move (faceit_shape_action st)) st in
            let st :=
              with_cc_action
                (option_map
                   (fun cc_action =>
                      let cc_action :=
                        shift_cc_curve (name expression_item) add_frame cc_action in
                      shift_cc_curve (name new_index_item) (- add_frame)%Z cc_action)
                   (corrective_sk_action st)) st in
            let n := List.length expression_list in
            let expression_list :=
              Collection.update_at (position n index)
                                   (set_frame new_index_frame) expression_list in
            let expression_list :=
              Collection.update_at (position n new_index)
                                   (set_frame expression_frame) expression_list in
            let expression_list := Collection.move new_index index expression_list in
            let st := with_expression_list expression_list st in
            finished (move_index direction expression_list index st)
        end
  end.

End FACEIT_OT_MoveExpressionItem.

(** [FACEIT_OT_RemoveExpressionItem] *)
Module FACEIT_OT_RemoveExpressionItem.

Record Props : Set := mkProps { remove_item : string }.

Definition poll (st : Blend) : bool :=
  let idx := faceit_expression_list_index st in
  (0 <=? idx)%Z && (idx <? Z.of_nat (List.length (faceit_expression_list st)))%Z.

(** [for key in curve.keyframe_points: if key.co[0] == frame:
    curve.keyframe_points.remove(key)].  Removing the key under the
    cursor moves the later keys one place down while the cursor still
    advances: the key that followed the removed one is not visited. *)
Fixpoint remove_keys_at (frame : Z) (keys : list Keyframe) : list Keyframe :=
  match keys with
  | [] => []
  | key :: rest =>
      if (co0 key =? frame)%Z then
        match rest with
        | [] => []
        | next :: rest' => next :: remove_keys_at frame rest'
        end
      else key :: remove_keys_at frame rest
  end.

Definition shift_keys_after (frame : Z) (keys : list Keyframe) : list Keyframe :=
  map (fun key => if (co0 key >? frame)%Z
                  then set_co0 (co0 key - 10)%Z key else key) keys.

Definition remove_from_action (frame : Z) (action : Action) : Action :=
  let action :=
    map (fun curve =>
           set_keyframe_points (remove_keys_at frame (keyframe_points curve)) curve)
        action in
  map (fun curve =>
         set_keyframe_points (shift_keys_after frame (keyframe_points curve)) curve)
      action.

Definition _remove_faceit_item (item : Expression) (st : Blend) : Blend :=
  let expression_list := faceit_expression_list st in
  let item_index := Collection.find (name item) expression_list in
  let frame0 := frame item in
  let st := with_ow_action
              (option_map (remove_from_action frame0) (overwrite_shape_action st)) st in
  let st := with_shape_action
              (option_map (remove_from_action frame0) (faceit_shape_action st)) st in
  let st := with_cc_action
              (option_map (remove_from_action frame0) (corrective_sk_action st)) st in
  let expression_list := Collection.remove item_index expression_list in
  let expression_list :=
    map (fun item => if (frame item >? frame0)%Z
                     then set_frame (frame item - 10)%Z item else item)
        expression_list in
  with_expression_list expression_list st.

Section Execute.
Context {addon : Addon}.

Definition execute (self : Props) (st : Blend) : Run :=
  let auto_key := use_keyframe_insert_auto st in
  let st := with_auto_key false st in
  let expression_list := faceit_expression_list st in
  let expression_list_index := faceit_expression_list_index st in
  let ow_action := overwrite_shape_action st in
  if (List.length expression_list <=? 1)%nat then
    and_then (FACEIT_OT_ClearFaceitExpressions.execute st)
             (fun st => finished (with_frame_range (1, 250)%Z st))
  else
    let selected :=
      if negb (String.eqb (remove_item self) "")
      then Collection.get_named (remove_item self) expression_list
      else Collection.get expression_list expression_list_index in
    match selected with
    | None =>
        raised (if negb (String.eqb (remove_item self) "")
                then "KeyError" else "IndexError") st
    | Some item =>
        let st := _remove_faceit_item item st in
        let expression_count := Z.of_nat (List.length (faceit_expression_list st)) in
        let st := if (expression_count <=? expression_list_index)%Z
                  then with_list_index (expression_count - 1)%Z st else st in
        let st := with_auto_key auto_key st in
        let st := match ow_action, overwrite_shape_action st with
                  | Some _, Some a => with_frame_range (get_action_frame_range a) st
                  | _, _ => st
                  end in
        finished st
    end.

End Execute.

End FACEIT_OT_RemoveExpressionItem.

(** [FACEIT_OT_ProceduralEyeBlinks] *)
Module FACEIT_OT_ProceduralEyeBlinks.

Inductive AnimMode : Set := ADD | REPLACE.

Record Props : Set := mkProps {
  expression_index : Z;
  side : string;
  anim_mode : AnimMode
}.

Section Execute.
Context {addon : Addon}.

Definition execute (self : Props) (st : Blend) : Run :=
  let backup_action := option_default [] (faceit_shape_action st) in
  let action := option_default [] (overwrite_shape_action st) in
  let st := with_shape_action (Some backup_action) st in
  let st := with_ow_action (Some action) st in
  let auto_key := use_keyframe_insert_auto st in
  let st := with_auto_key false st in
  match Collection.get (faceit_expression_list st) (expression_index self) with
  | None => raised "IndexError" st
  | Some expression_item =>
      let frame0 := frame expression_item in
      let '(action, backup_action) :=
        eye_blink_pose (side self)
                       (match anim_mode self with REPLACE => true | ADD => false end)
                       frame0 (action, backup_action) in
      let st := with_ow_action (Some action) st in
      let st := with_shape_action (Some backup_action) st in
      finished (with_auto_key auto_key st)
  end.

End Execute.

End FACEIT_OT_ProceduralEyeBlinks.

(** [FACEIT_OT_ProceduralMouthClose] *)
Module FACEIT_OT_ProceduralMouthClose.

Record Props : Set := mkProps {
  jaw_open_expression : string;
  mouth_close_expression : string
}.

Section Execute.
Context {addon : Addon}.

Definition execute (self : Props) (st : Blend) : Run :=
  let auto_key := use_keyframe_insert_auto st in
  let st := with_auto_key false st in
  let backup_action := option_default [] (faceit_shape_action st) in
  let action := option_default [] (overwrite_shape_action st) in
  let st := with_shape_action (Some backup_action) st in
  let st := with_ow_action (Some action) st in
  let expression_list := faceit_expression_list st in
  match Collection.get_named (jaw_open_expression self) expression_list,
        Collection.get_named (mouth_close_expression self) expression_list with
  | Some jaw_open_shape, Some mouth_close_shape =>
      let '(action, backup_action) :=
        mouth_close_pose (frame jaw_open_shape) (frame mouth_close_shape)
                         (action, backup_action) in
      let st := with_ow_action (Some action) st in
      let st := with_shape_action (Some backup_action) st in
      finished (with_auto_key auto_key st)
  | _, _ => raised "AttributeError" st
  end.

End Execute.

End FACEIT_OT_ProceduralMouthClose.

(** [FACEIT_OT_AddExpressionItem] *)
Module FACEIT_OT_AddExpressionItem.

Record Props : Set := mkProps {
  expression_name : string;
  new_exp_index : Z;
  mirror_name_overwrite : string;
  side : string;
  custom_shape : bool;
  auto_mirror : bool;
  procedural : Procedural
}.

Section Execute.
Context {addon : Addon}.

Definition eye_blinks (side0 : string) (st : Blend) : Run :=
  FACEIT_OT_ProceduralEyeBlinks.execute
    (FACEIT_OT_ProceduralEyeBlinks.mkProps
       (-1)%Z side0
       (if String.eqb side0 "N" then FACEIT_OT_ProceduralEyeBlinks.ADD
        else FACEIT_OT_ProceduralEyeBlinks.REPLACE))
    st.

(** The curves created for the control bones of the rig. *)
Definition bone_curves (ow_action : Action) : Action :=
  fold_left
    (fun ow_action b =>
       if contains "MCH" b || contains "DEF" b then ow_action
       else
         let base_dp := "pose.bones[" ++ dquote ++ b ++ dquote ++ "]." in
         fold_left
           (fun ow_action dp =>
              fold_left
                (fun ow_action i => fst (get_fcurve_from_bpy_struct ow_action dp i))
                [0; 1; 2]%Z ow_action)
           [base_dp ++ "location"; base_dp ++ "scale"; base_dp ++ "rotation_euler"]
           ow_action)
    pose_bones ow_action.

(** The last lines of [execute]: auto-keying is restored and the frame
    range follows the overwrite action, if the operator holds one. *)
Definition finish (auto_key ow_action : bool) (st : Blend) : Run :=
  let st := with_auto_key auto_key st in
  let st := match ow_action, overwrite_shape_action st with
            | true, Some a => with_frame_range (get_action_frame_range a) st
            | _, _ => st
            end in
  finished st.

(** [execute], with the run of the operator on the mirror expression
    passed as [nested]. *)
Definition execute_with (nested : Props -> Blend -> Run)
           (self : Props) (st : Blend) : Run :=
  let auto_key := use_keyframe_insert_auto st in
  let st := with_auto_key false st in
  let expression_list := faceit_expression_list st in
  let ow_action := is_some (overwrite_shape_action st) in
  if negb (new_exp_index self =? -1)%Z then raised "UnboundLocalError" st
  else
    let index := Z.of_nat (List.length expression_list) in
    let frame0 := ((index + 1) * 10)%Z in
    let expression_name_final :=
      get_expression_name_double_entries (expression_name self) expression_list in
    let item :=
      mkExpression expression_name_final (side self) frame0 0%Z
                   (if negb (String.eqb (mirror_name_overwrite self) "")
                    then mirror_name_overwrite self else "")
                   false (procedural self) in
    let st := with_expression_list (expression_list ++ [item]) st in
    if custom_shape self then
      let side0 :=
        if negb (poll_side_in_expression_name (side self) (expression_name self))
        then "N" else side self in
      let item :=
        if String.eqb (mirror_name item) ""
        then set_mirror_name (get_mirror_name side0 expression_name_final) item
        else item in
      let st := with_expression_list (expression_list ++ [item]) st in
      let st := with_shape_action
                  (Some (option_default [] (faceit_shape_action st))) st in
      let st := with_ow_action
                  (Some (option_default [] (overwrite_shape_action st))) st in
      let st := with_ow_action
                  (option_map bone_curves (overwrite_shape_action st)) st in
      let st := with_rig_action (Some overwrite_shape_action_name) st in
      let st := with_ow_action
                  (option_map (add_expression_keyframes frame0)
                              (overwrite_shape_action st)) st in
      and_then
        (if negb (Procedural_eqb (procedural self) NONE)
         then eye_blinks side0 st else finished st)
        (fun st =>
           and_then
             (if auto_mirror self && negb (String.eqb side0 "N") then
                let mirror_side := if String.eqb side0 "L" then "R" else "L" in
                nested (mkProps (mirror_name item) (-1)%Z "" mirror_side
                                true false (procedural self)) st
              else finished st)
             (fun st => finish auto_key true (with_list_index index st)))
    else
      and_then
        (if Procedural_eqb (procedural self) EYEBLINKS
         then eye_blinks (side self) st else finished st)
        (finish auto_key ow_action).

Definition execute (self : Props) (st : Blend) : Run :=
  execute_with (execute_with (fun _ st => finished st)) self st.

(** [bpy.ops.faceit.add_expression_item('EXEC_DEFAULT', ...)]: the
    keyword arguments are converted to operator properties first, the
    defaults filling the rest. *)
Definition call (expression_name0 side0 mirror_name_overwrite0 procedural0 : string)
           (st : Blend) : Run :=
  match Procedural_of_string procedural0 with
  | Some p =>
      if side_enum_valid side0
      then execute (mkProps expression_name0 (-1)%Z mirror_name_overwrite0
                            side0 false false p) st
      else raised "TypeError" st
  | None => raised "TypeError" st
  end.

End Execute.

End FACEIT_OT_AddExpressionItem.

(** [FACEIT_OT_ForceZeroFrames] *)
Module FACEIT_OT_ForceZeroFrames.

Definition poll (st : Blend) : bool :=
  negb (Nat.eqb (List.length (faceit_expression_list st)) 0)
  && match rig_action st with
     | Some n => is_some (actions_get n st)
     | None => false
     end.

Definition zero_frames (expression_list : list Expression) : list Z :=
  sorted_set
    (flat_map (fun exp => [frame exp + 1; frame exp - 9]%Z) expression_list).

Definition kf_zero_value (fc : FCurve) : Q :=
  if contains "scale" (data_path fc) then 1%Q
  else if contains "rotation_quaternion" (data_path fc) && (array_index fc =? 0)%Z
       then 1%Q
       else 0%Q.

Definition zero_curve (frames : list Z) (fc : FCurve) : FCurve :=
  if contains "constraints" (data_path fc) || contains "influence" (data_path fc)
  then fc
  else
    FCurves.update
      (set_keyframe_points
         (fold_left (fun keys f => FCurves.insert f (kf_zero_value fc) keys)
                    frames (keyframe_points fc)) fc).

Section Execute.
Context {addon : Addon}.

Definition execute (st : Blend) : Run :=
  let auto_key := use_keyframe_insert_auto st in
  let st := with_auto_key false st in
  let expression_list := faceit_expression_list st in
  match zero_frames expression_list with
  | [] => raised "IndexError" st
  | (zero_ref_frame :: _) as frames =>
      match rig_action st with
      | None => raised "AttributeError" st
      | Some active =>
          match actions_get active st with
          | None => raised "AttributeError" st
          | Some action =>
              let action := keyframe_insert_rest_pose zero_ref_frame action in
              let action := map (zero_curve frames) action in
              let st := actions_set active (Some action) st in
              finished (with_auto_key auto_key st)
          end
      end
  end.

End Execute.

End FACEIT_OT_ForceZeroFrames.

(** [FACEIT_OT_ExportExpressionsToJson] *)
Module FACEIT_OT_ExportExpressionsToJson.

Record Props : Set := mkProps { filepath : string }.

Definition poll (st : Blend) : bool :=
  negb (Nat.eqb (List.length (faceit_expression_list st)) 0)
  && match rig_action st with
     | Some n => is_some (actions_get n st)
     | None => false
     end.

Definition expression_list_data (expression_list : list Expression)
  : list (string * ExpressionData) :=
  fold_left
    (fun data exp =>
       let procedural0 := procedural exp in
       let procedural0 :=
         if (String.eqb (name exp) "eyeBlinkLeft"
             || String.eqb (name exp) "eyeBlinkRight")
            && Procedural_eqb procedural0 NONE
         then EYEBLINKS else procedural0 in
       dict_set String.eqb (name exp)
                (mkExpressionData (Some (mirror_name exp)) (Some (side exp))
                                  (Some (Procedural_to_string procedural0)))
                data)
    expression_list [].

Section Execute.
Context {addon : Addon}.

Definition export_curve (action_dict : list (string * list (Z * list Keyframe)))
           (fc : FCurve) : list (string * list (Z * list Keyframe)) :=
  let dp := data_path fc in
  let array_index0 := array_index fc in
  if contains "DEF-" dp || contains "MCH-" dp || contains "ORG-" dp then action_dict
  else if contains "influence" dp then action_dict
  else
    let kf_data := kf_data_to_numpy_array fc in
    let kf_data :=
      if contains "mouth_lock" dp then kf_data
      else
        let kf_data :=
          filter (fun k => negb (negb (co0 k mod 10 =? 0)%Z)) kf_data in
        if contains "scale" dp
           || contains "rotation_quaternion" dp && (array_index0 =? 0)%Z
        then filter (fun k => negb (Qeq_bool (co1 k) 1)) kf_data
        else filter (fun k => negb (Qeq_bool (co1 k) 0)) kf_data in
    match kf_data with
    | [] => action_dict
    | _ :: _ =>
        match dict_get String.eqb dp action_dict with
        | Some dp_dict =>
            dict_set String.eqb dp
                     (dict_set Z.eqb array_index0 kf_data dp_dict) action_dict
        | None => dict_set String.eqb dp [(array_index0, kf_data)] action_dict
        end
    end.

Definition execute (self : Props) (st : Blend) : Run :=
  let auto_key := use_keyframe_insert_auto st in
  let st := with_auto_key false st in
  match rig_action st with
  | None => raised "AttributeError" st
  | Some active =>
      match actions_get active st with
      | None => raised "AttributeError" st
      | Some action =>
          let data :=
            mkFaceFile rig_dimensions get_eye_dimensions
                       (expression_list_data (faceit_expression_list st))
                       (fold_left export_curve action []) in
          let filepath0 :=
            if negb (endswith (filepath self) ".face")
            then filepath self ++ ".face" else filepath self in
          let st := with_disk (dict_set String.eqb filepath0 data (disk st)) st in
          finished (with_auto_key auto_key st)
      end
  end.

End Execute.

End FACEIT_OT_ExportExpressionsToJson.

(** [os.path] *)
Module OsPath.

Fixpoint rfind_from (c : ascii) (s : string) (pos last : Z) : Z :=
  match s with
  | EmptyString => last
  | String d s' =>
      rfind_from c s' (pos + 1)%Z (if Ascii.eqb d c then pos else last)
  end.

(** [p.rfind(c)] for a one-character [c] *)
Definition rfind (c : ascii) (p : string) : Z := rfind_from c p 0%Z (-1)%Z.

Fixpoint all_dots (s : string) : bool :=
  match s with
  | EmptyString => true
  | String d s' => Ascii.eqb d "."%char && all_dots s'
  end.

(** [os.path.splitext(p)] (with [/] as the separator): the extension
    starts at the last dot of the last component, leading dots of the
    component excepted. *)
Definition splitext (p : string) : string * string :=
  let len := Z.of_nat (String.length p) in
  let sepIndex := rfind "/"%char p in
  let dotIndex := rfind "."%char p in
  if (sepIndex <? dotIndex)%Z
     && negb (all_dots (slice p (sepIndex + 1)%Z dotIndex))
  then (slice p 0%Z dotIndex, slice p dotIndex len)
  else (p, EmptyString).

Definition isfile (p : string) (st : Blend) : bool :=
  is_some (dict_get String.eqb p (disk st)).

End OsPath.

(** [FACEIT_OT_AppendActionToFaceitRig] *)
Module FACEIT_OT_AppendActionToFaceitRig.

Inductive ExpressionsType : Set := ARKIT | A2F | TONGUE | PHONEMES.
Inductive LoadMethod : Set := APPEND | OVERWRITE.
Inductive ScaleMethod : Set := Scale_AUTO | Scale_OVERWRITE | Scale_NONE.
Inductive AutoScaleMethod : Set := GLOBAL | AVERAGE.

Record Props : Set := mkProps {
  expressions_type : ExpressionsType;
  load_custom_path : bool;
  load_method : LoadMethod;
  filepath : string;
  scale_method : ScaleMethod;
  auto_scale_method : AutoScaleMethod;
  new_action_scale : list Q;
  auto_scale_eyes : bool;
  apply_existing_corrective_shape_keys : bool;
  first_expression_set : bool
}.

Definition expression_presets (t : ExpressionsType) : string :=
  match t with
  | ARKIT => "arkit_expressions.face"
  | TONGUE => "tongue_expressions.face"
  | PHONEMES => "phoneme_expressions.face"
  | A2F => "a2f_46_expressions.face"
  end.

Definition new_frames (new_expression_count : nat) : list Z :=
  map (fun i => ((Z.of_nat i + 1) * 10)%Z) (seq 0 new_expression_count).

Definition zero_frames (new_expression_count : nat) : list Z :=
  sorted_set
    (flat_map (fun frame0 => [frame0 + 1; frame0 - 9]%Z)
              (new_frames new_expression_count)).

Definition bone_name_of (dp : string) : string :=
  slice dp (PyStr.find ("bones[" ++ dquote) dp + 7)%Z (PyStr.find (dquote ++ "]") dp).

Definition channels_of (dp : string) : nat :=
  if contains "rotation_quaternion" dp then 4%nat
  else if contains "scale" dp || contains "rotation_euler" dp
          || contains "location" dp then 3%nat
  else 1%nat.

Definition base_value (dp : string) (i : Z) : Q :=
  if contains "scale" dp then 1%Q
  else if contains "rotation_quaternion" dp && (i =? 0)%Z then 1%Q
  else 0%Q.

Definition skip_lid_bones : list string :=
  [ "lid.T.L.003"; "lid.T.L.002"; "lid.T.L.001"; "lid.B.L.001"; "lid.B.L.002";
    "lid.B.L.003"; "lid.B.L"; "lid.T.L"; "lid.T.R.003"; "lid.T.R.002";
    "lid.T.R.001"; "lid.B.R.001"; "lid.B.R.002"; "lid.B.R.003"; "lid.B.R";
    "lid.T.R" ].

Definition skip_double_constraint : list string :=
  [ "nose.005"; "chin.002"; "nose.003" ].

Section Execute.
Context {addon : Addon}.

(** The keyframe array handed over for channel [i] of [dp]: the rows of
    the file, if any, followed by the rest keys of all boundary frames. *)
Definition kf_data_for (zero_frames0 : list Z) (dp : string)
           (data_per_array_index : list (Z * list Keyframe)) (i : Z)
  : list Keyframe :=
  let data := dict_get Z.eqb i data_per_array_index in
  let kf_data_base := map (fun f => mkKey f (base_value dp i)) zero_frames0 in
  match data with
  | Some ((_ :: _) as rows) => (rows ++ kf_data_base)%list
  | _ => kf_data_base
  end.

(** One pass of the loop over [action_dict.items()]; the temporary
    action and the names of missing bones are threaded through. *)
Definition import_data_path (zero_frames0 : list Z)
           (acc : Action * list string)
           (entry : string * list (Z * list Keyframe)) : Action * list string :=
  let '(new_shape_action, missing_dps) := acc in
  let '(dp, data_per_array_index) := entry in
  let bone_name := bone_name_of dp in
  if contains "influence" dp then acc
  else if negb (existsb (String.eqb bone_name) pose_bones) then
    if negb (existsb (String.eqb bone_name) missing_dps)
    then (new_shape_action, (missing_dps ++ [bone_name])%list)
    else acc
  else
    (fold_left
       (fun new_shape_action i =>
          let fc := mkFCurve dp (Z.of_nat i) [] in
          (new_shape_action
             ++ [populate_keyframe_points_from_np_array
                   fc (kf_data_for zero_frames0 dp data_per_array_index (Z.of_nat i))])%list)
       (seq 0 (channels_of dp)) new_shape_action,
     missing_dps).

(** Lines 767-823: the temporary action built from the file. *)
Definition build_new_shape_action (data : FaceFile) : Action * list string :=
  let new_expression_count := List.length (file_expressions data) in
  fold_left (import_data_path (zero_frames new_expression_count))
            (file_action data) ([], []).

(** With no expression in the file there is no boundary frame, and the
    array operations on the first curve raise. *)
Definition build_raises (data : FaceFile) : bool :=
  match zero_frames (List.length (file_expressions data)) with
  | [] => negb (Nat.eqb (List.length (fst (build_new_shape_action data))) 0)
  | _ :: _ => false
  end.

Definition all_one (scale : list Q) : bool :=
  forallb (fun x => Qeq_bool x 1) scale.

(** Lines 844-912: scaling of the new poses. *)
Definition scale_new_poses (self : Props) (data : FaceFile)
           (new_shape_action : Action) : option Action :=
  let frames := new_frames (List.length (file_expressions data)) in
  let eye_dimensions := file_eye_dimensions data in
  let scale_eyes :=
    negb (Nat.eqb (List.length eye_dimensions) 0) && auto_scale_eyes self in
  let skip_scale_bones :=
    if scale_eyes then (skip_double_constraint ++ skip_lid_bones)%list
    else skip_double_constraint in
  let scaled :=
    match scale_method self with
    | Scale_AUTO =>
        match rig_dimensions, file_action_scale data with
        | r0 :: r1 :: r2 :: _, d0 :: d1 :: d2 :: _ =>
            if Qeq_bool d0 0 || Qeq_bool d1 0 || Qeq_bool d2 0 then None
            else
              let action_scale := [r0 / d0; r1 / d1; r2 / d2]%Q in
              if negb (all_one action_scale) then
                match auto_scale_method self with
                | GLOBAL =>
                    Some (scale_poses_to_new_dimensions_slow
                            action_scale skip_scale_bones frames new_shape_action)
                | AVERAGE =>
                    Some (scale_action_to_rig
                            new_shape_action action_scale skip_lid_bones frames)
                end
              else Some new_shape_action
        | _, _ => None
        end
    | Scale_OVERWRITE =>
        let action_scale := new_action_scale self in
        if negb (all_one action_scale)
        then Some (scale_poses_to_new_dimensions_slow
                     action_scale [] frames new_shape_action)
        else Some new_shape_action
    | Scale_NONE => Some new_shape_action
    end in
  option_map
    (fun a => if scale_eyes then scale_eye_animation eye_dimensions a else a)
    scaled.

(** Appending the keys of an imported curve to the curve of the same
    channel in an existing action. *)
Definition append_curve (kf_data : list Keyframe) (dp : string) (a_index : Z)
           (action : Action) : Action :=
  let '(action, pos) := get_fcurve_from_bpy_struct action dp a_index in
  Collection.update_at
    pos (fun fc => populate_keyframe_points_from_np_array fc kf_data) action.

Definition append_action (frame_offset : Z) (new_shape_action : Action)
           (action : Action) : Action :=
  fold_left
    (fun action import_fc =>
       let kf_data :=
         map (fun k => set_co0 (co0 k + frame_offset)%Z k)
             (kf_data_to_numpy_array import_fc) in
       append_curve kf_data (data_path import_fc) (array_index import_fc) action)
    new_shape_action action.

(** Lines 958-970: the items of the file are added one by one. *)
Definition load_expression (r : Run) (entry : string * ExpressionData) : Run :=
  and_then r
    (fun st =>
       let '(expression_name, expression_data) := entry in
       let mirror_name0 := option_default "" (data_mirror_name expression_data) in
       let side0 :=
         match data_side expression_data with
         | Some s => if String.eqb s "" then "N" else s
         | None => "N"
         end in
       let procedural0 := option_default "NONE" (data_procedural expression_data) in
       FACEIT_OT_AddExpressionItem.call
         expression_name side0 mirror_name0 procedural0 st).

Definition load_expressions (expression_data_loaded : list (string * ExpressionData))
           (st : Blend) : Run :=
  fold_left load_expression expression_data_loaded (finished st).

Definition mouth_close (self : Props) (st : Blend) : Run :=
  if negb (load_custom_path self) then
    match expressions_type self with
    | ARKIT =>
        FACEIT_OT_ProceduralMouthClose.execute
          (FACEIT_OT_ProceduralMouthClose.mkProps "jawOpen" "mouthClose") st
    | A2F =>
        FACEIT_OT_ProceduralMouthClose.execute
          (FACEIT_OT_ProceduralMouthClose.mkProps "jawDrop" "jawDropLipTowards") st
    | _ => finished st
    end
  else finished st.

Definition execute (self : Props) (st : Blend) : Run :=
  if load_custom_path self
     && negb (String.eqb (snd (OsPath.splitext (filepath self))) ".face")
  then mkRun (Returned CANCELLED)
             [("ERROR", "You need to provide a file of type .face")] st
  else if load_custom_path self && negb (OsPath.isfile (filepath self) st)
  then mkRun (Returned CANCELLED)
             [("ERROR", "The specified filepath does not exist: " ++ filepath self)] st
  else
    let st := with_auto_key false st in
    let ow_action := overwrite_shape_action st in
    let shape_action := faceit_shape_action st in
    let load_method0 := load_method self in
    let '(load_method0, reports0) :=
      match load_method0 with
      | APPEND =>
          let '(m, r) :=
            if Nat.eqb (List.length (faceit_expression_list st)) 0
            then (OVERWRITE,
                  [("INFO", "Could not append the expressions, because there are no shapes. Using Overwrite method instead")])
            else (APPEND, []) in
          if negb (is_some shape_action) || negb (is_some ow_action)
          then (OVERWRITE,
                (r ++ [("INFO", "Could not append the action, because no Action was found. Using Overwrite method instead")])%list)
          else (m, r)
      | OVERWRITE => (OVERWRITE, [])
      end in
    let st :=
      match load_method0 with
      | OVERWRITE =>
          with_ow_action None (with_shape_action None (with_expression_list [] st))
      | APPEND => st
      end in
    let filepath0 :=
      if negb (load_custom_path self)
      then get_expression_presets ++ expression_presets (expressions_type self)
      else filepath self in
    match dict_get String.eqb filepath0 (disk st) with
    | None => mkRun (Raised "FileNotFoundError") reports0 st
    | Some data =>
        if build_raises data then mkRun (Raised "IndexError") reports0 st
        else
          let '(new_shape_action, missing_dps) := build_new_shape_action data in
          let reports1 :=
            (reports0
               ++ map (fun bone_name =>
                         ("WARNING",
                          ("An Fcurve has been loaded for the bone " ++ bone_name
                             ++ " which is missing in the Faceit Rig. Regenerate the Rig!")%string))
                      missing_dps)%list in
          let warnings := negb (Nat.eqb (List.length missing_dps) 0) in
          match scale_new_poses self data new_shape_action with
          | None => mkRun (Raised "ZeroDivisionError") reports1 st
          | Some new_shape_action =>
              let st :=
                match load_method0 with
                | OVERWRITE =>
                    let st := with_shape_action (Some new_shape_action) st in
                    with_ow_action
                      (Some (create_overwrite_animation new_shape_action)) st
                | APPEND =>
                    let frame_offset :=
                      (snd (get_action_frame_range (option_default [] ow_action)) - 1)%Z in
                    let st :=
                      with_shape_action
                        (option_map (append_action frame_offset new_shape_action)
                                    (faceit_shape_action st)) st in
                    with_ow_action
                      (option_map (append_action frame_offset new_shape_action)
                                  (overwrite_shape_action st)) st
                end in
              let st := if is_some (overwrite_shape_action st)
                        then with_rig_action (Some overwrite_shape_action_name) st
                        else st in
              let loaded :=
                and_then (load_expressions (file_expressions data) st)
                         (mouth_close self) in
              match outcome loaded with
              | Raised e => mkRun (Raised e) reports1 (final loaded)
              | Returned _ =>
                  let st := final loaded in
                  let reports2 :=
                    (reports1
                       ++ [if warnings
                           then ("WARNING",
                                 "Operator finished with Warnings. Take a look at the console output for more information.")
                           else ("INFO", "New Expressions.")])%list in
                  let expression_list := faceit_expression_list st in
                  let flags :=
                    if apply_existing_corrective_shape_keys self
                    then reevaluate_corrective_shape_keys expression_list
                    else clear_all_corrective_shape_keys expression_list in
                  let st :=
                    with_expression_list
                      (map (fun e => set_corr_shape_key (flags e) e) expression_list)
                      st in
                  let st :=
                    match overwrite_shape_action st with
                    | Some a => with_frame_range (get_action_frame_range a) st
                    | None => st
                    end in
                  let st := with_auto_key (first_expression_set self) st in
                  mkRun (Returned FINISHED) reports2 st
              end
          end
    end.

End Execute.

End FACEIT_OT_AppendActionToFaceitRig.

(** ** Further operators and callbacks *)

(** [FACEIT_OT_EmptyExpressionsFromShapeKeys]: one empty custom
    expression for every shape key of the active object. *)
Module FACEIT_OT_EmptyExpressionsFromShapeKeys.

(** [context.object], as far as [execute] reads it: its name and the
    names of [obj.data.shape_keys.key_blocks], if it has shape keys
    ([sk_utils.has_shape_keys]). *)
Record Object : Set := mkObject {
  object_name : string;
  key_blocks : option (list string)
}.

Section Execute.
Context {addon : Addon}.

(** [bpy.ops.faceit.add_expression_item('EXEC_DEFAULT',
    expression_name=..., custom_shape=True, side=...)] *)
Definition add_custom_shape (expression_name0 side0 : string) (st : Blend) : Run :=
  if side_enum_valid side0
  then FACEIT_OT_AddExpressionItem.execute
         (FACEIT_OT_AddExpressionItem.mkProps
            expression_name0 (-1)%Z "" side0 true false NONE) st
  else raised "TypeError" st.

Definition execute (obj : option Object) (st : Blend) : Run :=
  match obj with
  | None =>
      mkRun (Returned CANCELLED)
            [("ERROR", "You need to select an object with shape keys.")] st
  | Some obj =>
      match key_blocks obj with
      | None =>
          mkRun (Returned CANCELLED)
                [("ERROR", "Object " ++ object_name obj ++ " has no shape keys.")] st
      | Some sks =>
          and_then
            (fold_left
               (fun r sk =>
                  and_then r
                    (fun st =>
                       if String.eqb sk "Basis" then finished st
                       else
                         let expression_name := sk in
                         let side := get_side expression_name in
                         add_custom_shape expression_name side st))
               sks (finished st))
            finished
      end
  end.

End Execute.

End FACEIT_OT_EmptyExpressionsFromShapeKeys.

(** [properties/mocap_scene_properties.py]: the poll and update
    callbacks of the motion capture properties of the scene. *)
Module MocapSceneProperties.

(** One item of [self.MOM_Items]. *)
Record MOM_Item : Set := mkMOM_Item {
  osc_address : string;
  record : bool
}.

Definition set_record (b : bool) (item : MOM_Item) : MOM_Item :=
  mkMOM_Item (osc_address item) b.

(** The loop of [update_record_face_cap], from a given value of the
    local [shape_key_set]. *)
Fixpoint record_items (faceit_record_face_cap shape_key_set : bool)
         (items : list MOM_Item) : list MOM_Item :=
  match items with
  | [] => []
  | item :: rest =>
      if negb shape_key_set then
        if String.eqb (osc_address item) "/W" then
          set_record faceit_record_face_cap item
          :: record_items faceit_record_face_cap true rest
        else item :: record_items faceit_record_face_cap shape_key_set rest
      else if negb (String.eqb (osc_address item) "/W") then
        set_record faceit_record_face_cap item
        :: record_items faceit_record_face_cap shape_key_set rest
      else item :: record_items faceit_record_face_cap shape_key_set rest
  end.

Definition update_record_face_cap (faceit_record_face_cap : bool)
           (MOM_Items : list MOM_Item) : list MOM_Item :=
  record_items faceit_record_face_cap false MOM_Items.

(** [any([word in fc.data_path for fc in action.fcurves])] *)
Definition any_data_path (word : string) (action : Action) : bool :=
  existsb (fun fc => contains word (data_path fc)) action.

Definition shapes_action_poll (action : Action) : bool :=
  any_data_path "key_block" action || Nat.eqb (List.length action) 0.

Definition rig_action_poll (action : Action) : bool :=
  any_data_path "pose.bones" action || Nat.eqb (List.length action) 0.

(** [scene.faceit_head_target_object], as far as the callbacks read it. *)
Record HeadObject : Set := mkHeadObject {
  object_type : string;
  animation_data : bool;
  pose_bone_names : list string
}.

(** [head_action_poll]; [None] is the [None] a Python function returns
    when it ends without [return]. *)
Definition head_action_poll (faceit_head_target_object : option HeadObject)
           (action_name : string) (action : Action) : option bool :=
  if String.eqb action_name "faceit_shape_action"
     || String.eqb action_name "faceit_shape_action"
  then Some false
  else
    match faceit_head_target_object with
    | Some head_obj =>
        if String.eqb (object_type head_obj) "ARMATURE"
        then Some (any_data_path "pose.bones" action
                   || Nat.eqb (List.length action) 0)
        else Some (negb (any_data_path "pose.bones" action)
                   || Nat.eqb (List.length action) 0)
    | None => None
    end.

(** [update_head_target_object], on the head target and the sub target
    of the scene. *)
Definition update_head_target_object
           (faceit_head_target_object : option HeadObject)
           (faceit_head_sub_target : string) : option HeadObject * string :=
  match faceit_head_target_object with
  | None => (None, faceit_head_sub_target)
  | Some head_obj =>
      let head_obj :=
        if negb (animation_data head_obj)
        then mkHeadObject (object_type head_obj) true (pose_bone_names head_obj)
        else head_obj in
      let head_bone_name := faceit_head_sub_target in
      if negb (String.eqb head_bone_name "")
         && String.eqb (object_type head_obj) "ARMATURE"
      then
        (Some head_obj,
         if existsb (String.eqb head_bone_name) (pose_bone_names head_obj)
         then head_bone_name else "")
      else (Some head_obj, faceit_head_sub_target)
  end.

End MocapSceneProperties.

(** ** Vocabulary of the statements *)

(** The spellings [get_mirror_name] rewrites for a left name. *)
Definition has_left_marker (expression_name : string) : bool :=
  contains "Left" expression_name || contains "left" expression_name
  || contains "LEFT" expression_name
  || endswith (lower expression_name) "_l" || endswith expression_name "L".

(** The spellings [get_mirror_name] rewrites for a right name. *)
Definition has_right_marker (expression_name : string) : bool :=
  contains "Right" expression_name || contains "right" expression_name
  || contains "RIGHT" expression_name
  || endswith (lower expression_name) "_r" || endswith expression_name "R".

(** The slot of a list position. *)
Definition slot_frame (i : nat) : Z := ((Z.of_nat i + 1) * 10)%Z.


(** A simple instance of the helpers, used to run the operators on
    concrete sessions. *)
Module Sample.

Fixpoint dots (n : nat) : string :=
  match n with
  | O => EmptyString
  | S n' => String "."%char (dots n')
  end.

Definition max_len (l : list string) : nat :=
  fold_right (fun s m => Nat.max (String.length s) m) O l.

Definition unique_name (n : string) (l : list Expression) : string :=
  if existsb (String.eqb n) (map name l)
  then n ++ dots (S (max_len (map name l)))
  else n.

Fixpoint curve_position (dp : string) (i : Z) (a : Action) : option nat :=
  match a with
  | [] => None
  | fc :: a' =>
      if String.eqb (data_path fc) dp && (array_index fc =? i)%Z then Some O
      else option_map S (curve_position dp i a')
  end.

Definition get_fcurve (a : Action) (dp : string) (i : Z) : Action * nat :=
  match curve_position dp i a with
  | Some pos => (a, pos)
  | None => ((a ++ [mkFCurve dp i []])%list, List.length a)
  end.

Definition populate (fc : FCurve) (kf_data : list Keyframe) : FCurve :=
  set_keyframe_points (keyframe_points fc ++ kf_data)%list fc.

Definition frame_range (a : Action) : Z * Z :=
  let frames := flat_map (fun fc => map co0 (keyframe_points fc)) a in
  match frames with
  | [] => (0, 0)%Z
  | f :: fs => (fold_left Z.min fs f, fold_left Z.max fs f)
  end.

#[global] Instance addon : Addon := {|
  get_expression_name_double_entries := unique_name;
  get_fcurve_from_bpy_struct := get_fcurve;
  populate_keyframe_points_from_np_array := populate;
  kf_data_to_numpy_array := keyframe_points;
  get_action_frame_range := frame_range;
  add_expression_keyframes := fun _ a => a;
  create_overwrite_animation := fun a => a;
  scale_poses_to_new_dimensions_slow := fun _ _ _ a => a;
  scale_action_to_rig := fun a _ _ _ => a;
  scale_eye_animation := fun _ a => a;
  get_eye_dimensions := [1; 1]%Q;
  eye_blink_pose := fun _ _ _ p => p;
  mouth_close_pose := fun _ _ p => p;
  reevaluate_corrective_shape_keys := fun _ e => corr_shape_key e;
  clear_all_corrective_shape_keys := fun _ _ => false;
  pose_bones := ["jaw_master"; "lip.T"; "DEF-jaw"];
  rig_dimensions := [1; 2; 3]%Q;
  keyframe_insert_rest_pose := fun _ a => a;
  get_expression_presets := "presets/"
|}.

Definition exp (n s : string) (f : Z) : Expression :=
  mkExpression n s f 0%Z EmptyString false NONE.

Definition curve (dp : string) (keys : list (Z * Z)) : FCurve :=
  mkFCurve dp 0%Z (map (fun p => mkKey (fst p) (inject_Z (snd p))) keys).

(** A session with the given list, selection and overwrite / shape
    actions. *)
Definition session (l : list Expression) (i : Z) (ow sh cc : option Action) : Blend :=
  mkBlend l i 1%Z 250%Z true ow sh cc (Some overwrite_shape_action_name) [].

End Sample.



(** The items at positions [k] and [k + 1] change places; the frames
    stay with the positions. *)
Fixpoint swap_slots (k : nat) (l : list Expression) : list Expression :=
  match k, l with
  | O, a :: b :: rest => set_frame (frame a) b :: set_frame (frame b) a :: rest
  | S k', a :: rest => a :: swap_slots k' rest
  | _, _ => l
  end.







Module Samples.

(** Two expressions on their slots; the overwrite action has a key on
    each slot and one on frame 15, midway between them. *)
Definition two_slots : Blend :=
  Sample.session
    [Sample.exp "jawOpen" "N" 10; Sample.exp "cheek_L" "L" 20] 0
    (Some [Sample.curve "location" [(10, 1); (15, 2); (20, 3)]%Z])
    (Some [Sample.curve "location" [(10, 1); (20, 3)]%Z])
    None.

(** Three expressions, the second selected. *)
Definition three_slots : Blend :=
  Sample.session
    [Sample.exp "jawOpen" "N" 10; Sample.exp "cheek_L" "L" 20;
     Sample.exp "cheek_R" "R" 30] 1
    (Some [Sample.curve "location" [(1, 0); (10, 1); (11, 0); (20, 2); (21, 0);
                                    (30, 3); (31, 0)]%Z])
    (Some [Sample.curve "scale" [(10, 1); (20, 2); (30, 3)]%Z])
    None.

(** A left blink and a jaw expression, with an overwrite action the rig
    plays. *)
Definition blink : Blend :=
  Sample.session
    [Sample.exp "eyeBlinkLeft" "L" 10; Sample.exp "jawOpen" "N" 20] 0
    (Some [mkFCurve ("pose.bones[" ++ dquote ++ "jaw_master" ++ dquote ++ "].location")
                    1%Z [mkKey 1 0; mkKey 10 0; mkKey 11 0; mkKey 20 (1 # 2);
                         mkKey 21 0]])
    (Some [])
    None.

Definition export_blink : FACEIT_OT_ExportExpressionsToJson.Props :=
  FACEIT_OT_ExportExpressionsToJson.mkProps "faces/blink".

Definition import_blink : FACEIT_OT_AppendActionToFaceitRig.Props :=
  FACEIT_OT_AppendActionToFaceitRig.mkProps
    FACEIT_OT_AppendActionToFaceitRig.ARKIT true
    FACEIT_OT_AppendActionToFaceitRig.OVERWRITE "faces/blink.face"
    FACEIT_OT_AppendActionToFaceitRig.Scale_AUTO
    FACEIT_OT_AppendActionToFaceitRig.GLOBAL [1; 1; 1]%Q true true false.

End Samples.

(** ** Sessions reachable through the operators *)

Section Reachable.
Context {addon : Addon}.



End Reachable.


(** The procedural value written to a [.face] file for an expression. *)
Definition exported_procedural (e : Expression) : Procedural :=
  if (String.eqb (name e) "eyeBlinkLeft" || String.eqb (name e) "eyeBlinkRight")
     && Procedural_eqb (procedural e) NONE
  then EYEBLINKS else procedural e.

(** The entry written to a [.face] file for an expression. *)
Definition export_entry (e : Expression) : string * ExpressionData :=
  (name e,
   mkExpressionData (Some (mirror_name e)) (Some (side e))
                    (Some (Procedural_to_string (exported_procedural e)))).



(** The path the export writes to. *)
Definition export_path (self : FACEIT_OT_ExportExpressionsToJson.Props) : string :=
  if negb (endswith (FACEIT_OT_ExportExpressionsToJson.filepath self) ".face")
  then FACEIT_OT_ExportExpressionsToJson.filepath self ++ ".face"
  else FACEIT_OT_ExportExpressionsToJson.filepath self.




(** ** Further vocabulary *)

(** The name carries its side, if any, only as a suffix: neither 'left'
    nor 'right' occurs in it, in any case. *)
Definition no_side_word (s : string) : Prop :=
  contains "left" (lower s) = false /\ contains "right" (lower s) = false.

(** The items after the first '/W' item, as [update_record_face_cap]
    leaves them: every other address is switched, a further '/W' item
    is not. *)
Definition record_others (flag : bool) (items : list MocapSceneProperties.MOM_Item)
  : list MocapSceneProperties.MOM_Item :=
  map (fun item =>
         if String.eqb (MocapSceneProperties.osc_address item) "/W" then item
         else MocapSceneProperties.set_record flag item)
      items.

(** No item of the list has the address '/W'. *)
Definition no_shape_key_item (items : list MocapSceneProperties.MOM_Item) : Prop :=
  forall item, In item items ->
    String.eqb (MocapSceneProperties.osc_address item) "/W" = false.

(** A run that only appends to the list, at most [k] items. *)
Definition appends_at_most (k : nat) (f : Blend -> Run) : Prop :=
  forall st,
  exists items,
    faceit_expression_list (final (f st)) = (faceit_expression_list st ++ items)%list
    /\ (List.length items <= k)%nat.

(** The item a custom expression gets in an empty slot. *)
Definition custom_expression (n s : string) (slot : nat) (m : string)
           (p : Procedural) : Expression :=
  mkExpression n s (slot_frame slot) 0%Z m false p.

(** The side opposite to 'L', resp. to anything else. *)
Definition opposite_side (s : string) : string :=
  if String.eqb s "L" then "R" else "L".

(** The shape keys an expression is made for. *)
Definition expression_shape_keys (sks : list string) : list string :=
  filter (fun sk => negb (String.eqb sk "Basis")) sks.

(** The empty expressions of these shape keys, from slot [o] on. *)
Fixpoint shape_key_expressions (o : nat) (sks : list string) : list Expression :=
  match sks with
  | [] => []
  | sk :: rest =>
      custom_expression sk (get_side sk) o (get_mirror_name (get_side sk) sk) NONE
      :: shape_key_expressions (S o) rest
  end.




(** The last item of that name in the list. *)
Definition last_named (n : string) (l : list Expression) : option Expression :=
  Collection.get_named n (rev l).

(** The rows written for channel [i] of [dp] come from a curve of the
    action on that channel: they are its keys, and unless the path is a
    'mouth_lock' one only those on a frame divisible by 10 whose value
    is not the rest value of the channel. *)
Definition exported_rows {addon : Addon} (action : Action) (dp : string) (i : Z)
           (rows : list Keyframe) : Prop :=
  rows <> []
  /\ exists fc,
      In fc action /\ data_path fc = dp /\ array_index fc = i
      /\ forall k,
          In k rows
          <-> In k (kf_data_to_numpy_array fc)
              /\ (contains "mouth_lock" dp = false ->
                  (co0 k mod 10 = 0)%Z
                  /\ Qeq_bool (co1 k)
                              (FACEIT_OT_AppendActionToFaceitRig.base_value dp i)
                     = false).

(** An entry of the 'action' object of an exported file: the path is
    none of those the export skips, and every channel written for it
    holds rows exported from a curve of the action. *)
Definition exported_channels {addon : Addon} (action : Action) (dp : string)
           (chans : list (Z * list Keyframe)) : Prop :=
  contains "DEF-" dp = false /\ contains "MCH-" dp = false
  /\ contains "ORG-" dp = false /\ contains "influence" dp = false
  /\ chans <> []
  /\ forall i rows, In (i, rows) chans -> exported_rows action dp i rows.


(** The side, the procedural value and the mirror name an entry of a
    [.face] file stands for, with the defaults for absent keys. *)
Definition entry_side (d : ExpressionData) : string :=
  match data_side d with
  | Some s => if String.eqb s "" then "N" else s
  | None => "N"
  end.

Definition entry_procedural (d : ExpressionData) : option Procedural :=
  Procedural_of_string (option_default "NONE" (data_procedural d)).

Definition entry_mirror_name (d : ExpressionData) : string :=
  option_default "" (data_mirror_name d).


(** The items made of the entries of a file, from list position [k]
    on. *)
Fixpoint imported (k : nat) (entries : list (string * ExpressionData))
  : list Expression :=
  match entries with
  | [] => []
  | (n, d) :: rest =>
      mkExpression n (entry_side d) (slot_frame k) 0%Z (entry_mirror_name d) false
                   (option_default NONE (entry_procedural d))
      :: imported (S k) rest
  end.



(** * Properties *)

(** ** Strings *)

Section StringFacts.

Lemma startswith_app (p s : string) : startswith p (p ++ s) = true.
Proof.
  induction p as [|a p IH]; simpl; [reflexivity|].
  now rewrite Ascii.eqb_refl, IH.
Qed.

Lemma startswith_lower (p s : string) :
  startswith p s = true -> startswith (lower p) (lower s) = true.
Proof.
  revert s; induction p as [|a p IH]; intros [|b s]; simpl; try easy.
  intros H; apply andb_true_iff in H as [Hab Hps].
  apply Ascii.eqb_eq in Hab; subst b.
  now rewrite Ascii.eqb_refl, IH.
Qed.

Lemma contains_lower (p s : string) :
  contains p s = true -> contains (lower p) (lower s) = true.
Proof.
  induction s as [|c s IH]; simpl.
  - rewrite !orb_false_r. apply (startswith_lower p EmptyString).
  - intros H; apply orb_true_iff in H as [H|H].
    + apply (startswith_lower p (String c s)) in H. simpl in H.
      now rewrite H.
    + rewrite (IH H). apply orb_true_r.
Qed.

Lemma contains_nonempty (p s : string) :
  p <> EmptyString -> contains p s = true -> s <> EmptyString.
Proof.
  intros Hp H ->. destruct p; [easy|]. discriminate H.
Qed.

Lemma contains_skip (p : string) (c : ascii) (s : string) :
  contains p s = true -> contains p (String c s) = true.
Proof. intros H; simpl. rewrite H. apply orb_true_r. Qed.

Lemma contains_startswith (p s : string) :
  startswith p s = true -> contains p s = true.
Proof. intros H; destruct s; simpl; now rewrite H. Qed.

(** After [replace], every occurrence found has become [new]: if [old]
    occurred at all, [new] occurs in the result. *)
Lemma replace_contains_new (old new s : string) :
  old <> EmptyString ->
  contains old s = true -> contains new (replace s old new) = true.
Proof.
  intros Hold. unfold replace.
  induction s as [|c s IH]; intros H.
  - destruct old; [easy | discriminate H].
  - cbn [replace_from].
    destruct (startswith old (String c s)) eqn:E.
    + apply contains_startswith, startswith_app.
    + cbn [contains] in H. rewrite E in H. simpl in H.
      apply contains_skip, IH, H.
Qed.

Lemma endswith_refl (s : string) : endswith s s = true.
Proof. destruct s; simpl; [reflexivity|]. now rewrite Ascii.eqb_refl, String.eqb_refl. Qed.

Lemma endswith_skip (c : ascii) (s suf : string) :
  endswith s suf = true -> endswith (String c s) suf = true.
Proof. intros H; cbn [endswith]. rewrite H. apply orb_true_r. Qed.

Lemma drop_last_cons (c d : ascii) (s : string) :
  drop_last (String c (String d s)) = String c (drop_last (String d s)).
Proof. reflexivity. Qed.

(** Replacing the last character of a name whose lower-cased form ends in
    the two characters [u v]. *)
Lemma endswith_lower_drop_last (u v w : ascii) (s : string) :
  endswith (lower s) (String u (String v EmptyString)) = true ->
  endswith (lower (drop_last s ++ String w EmptyString))
           (String u (String (lower_char w) EmptyString)) = true.
Proof.
  induction s as [|c s IH]; [discriminate|].
  destruct s as [|d s].
  - simpl. destruct (Ascii.eqb (lower_char c) u); discriminate.
  - intros H. rewrite drop_last_cons.
    change (lower (String c (String d s)))
      with (String (lower_char c) (lower (String d s))) in H.
    cbn [endswith] in H. apply orb_true_iff in H as [H|H].
    + apply String.eqb_eq in H. injection H as Hc Hd Hs.
      destruct s; [|discriminate Hs].
      simpl. rewrite Hc. now rewrite !Ascii.eqb_refl.
    + change (lower (String c (drop_last (String d s)) ++ String w EmptyString))
        with (String (lower_char c)
                     (lower (drop_last (String d s) ++ String w EmptyString))).
      apply endswith_skip, IH, H.
Qed.

Lemma endswith_drop_last_app (w : ascii) (s : string) :
  endswith (drop_last s ++ String w EmptyString) (String w EmptyString) = true.
Proof.
  induction s as [|c s IH]; [apply endswith_refl|].
  destruct s as [|d s]; [apply endswith_refl|].
  rewrite drop_last_cons. apply (endswith_skip c), IH.
Qed.

Lemma app_char_nonempty (s : string) (w : ascii) :
  s ++ String w EmptyString <> EmptyString.
Proof. destruct s; discriminate. Qed.

End StringFacts.

(** ** Side classification and mirror names *)

Section Sides.

Local Ltac side_cases name0 :=
  unfold get_side, poll_side_in_expression_name;
  destruct (contains "left" (lower name0) || endswith (lower name0) "_l"
            || endswith name0 "L") eqn:HL;
  destruct (contains "right" (lower name0) || endswith (lower name0) "_r"
            || endswith name0 "R") eqn:HR;
  cbn.

(** C10.  [get_side] returns exactly one of 'L', 'N' and 'R' for every
    name; [poll_side_in_expression_name] is false for side 'N'; and for a
    name classified 'L' or 'R' it is true for the side [get_side] gave. *)
Theorem get_side_total_and_consistent (expression_name : string) :
  ((get_side expression_name = "L" /\ get_side expression_name <> "N"
    /\ get_side expression_name <> "R")
   \/ (get_side expression_name = "N" /\ get_side expression_name <> "L"
       /\ get_side expression_name <> "R")
   \/ (get_side expression_name = "R" /\ get_side expression_name <> "L"
       /\ get_side expression_name <> "N"))
  /\ poll_side_in_expression_name "N" expression_name = false
  /\ (get_side expression_name = "L" \/ get_side expression_name = "R" ->
      poll_side_in_expression_name (get_side expression_name) expression_name = true).
Proof.
  split; [|split].
  - side_cases expression_name.
    + left. repeat split; discriminate.
    + left. repeat split; discriminate.
    + right; right. repeat split; discriminate.
    + right; left. repeat split; discriminate.
  - reflexivity.
  - side_cases expression_name; intros [H|H]; try reflexivity; discriminate H.
Qed.

Lemma get_side_total_and_consistent_witness :
  poll_side_in_expression_name (get_side "mouthSmile_L") "mouthSmile_L" = true.
Proof.
  apply (get_side_total_and_consistent "mouthSmile_L").
  left. reflexivity.
Defined.

Lemma poll_left_get_side (m : string) :
  poll_side_in_expression_name "L" m = true -> get_side m = "L".
Proof. unfold poll_side_in_expression_name, get_side. cbn. now intros ->. Qed.

Lemma poll_right_get_side (m : string) :
  poll_side_in_expression_name "L" m = false ->
  poll_side_in_expression_name "R" m = true -> get_side m = "R".
Proof. unfold poll_side_in_expression_name, get_side. cbn. now intros -> ->. Qed.

Lemma poll_right_of_contains (m : string) :
  contains "right" (lower m) = true -> poll_side_in_expression_name "R" m = true.
Proof. unfold poll_side_in_expression_name. cbn. now intros ->. Qed.

Lemma poll_left_of_contains (m : string) :
  contains "left" (lower m) = true -> poll_side_in_expression_name "L" m = true.
Proof. unfold poll_side_in_expression_name. cbn. now intros ->. Qed.

Lemma poll_right_of_lower_suffix (m : string) :
  endswith (lower m) "_r" = true -> poll_side_in_expression_name "R" m = true.
Proof.
  unfold poll_side_in_expression_name. cbn. intros ->.
  now rewrite orb_true_r.
Qed.

Lemma poll_left_of_lower_suffix (m : string) :
  endswith (lower m) "_l" = true -> poll_side_in_expression_name "L" m = true.
Proof.
  unfold poll_side_in_expression_name. cbn. intros ->.
  now rewrite orb_true_r.
Qed.

Lemma poll_right_of_suffix (m : string) :
  endswith m "R" = true -> poll_side_in_expression_name "R" m = true.
Proof.
  unfold poll_side_in_expression_name. cbn. intros ->.
  now rewrite !orb_true_r.
Qed.

Lemma poll_left_of_suffix (m : string) :
  endswith m "L" = true -> poll_side_in_expression_name "L" m = true.
Proof.
  unfold poll_side_in_expression_name. cbn. intros ->.
  now rewrite !orb_true_r.
Qed.

(** What [get_mirror_name] returns for side 'L' on a name with one of
    the spellings it knows. *)
Lemma get_mirror_name_left (expression_name : string) :
  has_left_marker expression_name = true ->
  get_mirror_name "L" expression_name <> EmptyString
  /\ poll_side_in_expression_name "R" (get_mirror_name "L" expression_name) = true.
Proof.
  unfold has_left_marker, get_mirror_name. cbn [String.eqb Ascii.eqb Bool.eqb].
  intros H.
  destruct (contains "Left" expression_name) eqn:E1.
  { pose proof (replace_contains_new "Left" "Right" expression_name
                  ltac:(discriminate) E1) as Hc.
    split; [eapply contains_nonempty; [|exact Hc]; discriminate|].
    apply poll_right_of_contains, (contains_lower "Right"), Hc. }
  destruct (contains "left" expression_name) eqn:E2.
  { pose proof (replace_contains_new "left" "right" expression_name
                  ltac:(discriminate) E2) as Hc.
    split; [eapply contains_nonempty; [|exact Hc]; discriminate|].
    apply poll_right_of_contains, (contains_lower "right"), Hc. }
  destruct (contains "LEFT" expression_name) eqn:E3.
  { pose proof (replace_contains_new "LEFT" "RIGHT" expression_name
                  ltac:(discriminate) E3) as Hc.
    split; [eapply contains_nonempty; [|exact Hc]; discriminate|].
    apply poll_right_of_contains, (contains_lower "RIGHT"), Hc. }
  destruct (endswith (lower expression_name) "_l") eqn:E4.
  { destruct (last_islower expression_name); (split; [apply app_char_nonempty|]).
    - apply poll_right_of_lower_suffix.
      apply (endswith_lower_drop_last "_" "l" "r"), E4.
    - apply poll_right_of_lower_suffix.
      apply (endswith_lower_drop_last "_" "l" "R"), E4. }
  destruct (endswith expression_name "L") eqn:E5; [|discriminate H].
  split; [apply app_char_nonempty|].
  apply poll_right_of_suffix, endswith_drop_last_app.
Qed.

(** The same for side 'R'. *)
Lemma get_mirror_name_right (expression_name : string) :
  has_right_marker expression_name = true ->
  get_mirror_name "R" expression_name <> EmptyString
  /\ poll_side_in_expression_name "L" (get_mirror_name "R" expression_name) = true.
Proof.
  unfold has_right_marker, get_mirror_name. cbn [String.eqb Ascii.eqb Bool.eqb].
  intros H.
  destruct (contains "Right" expression_name) eqn:E1.
  { pose proof (replace_contains_new "Right" "Left" expression_name
                  ltac:(discriminate) E1) as Hc.
    split; [eapply contains_nonempty; [|exact Hc]; discriminate|].
    apply poll_left_of_contains, (contains_lower "Left"), Hc. }
  destruct (contains "right" expression_name) eqn:E2.
  { pose proof (replace_contains_new "right" "left" expression_name
                  ltac:(discriminate) E2) as Hc.
    split; [eapply contains_nonempty; [|exact Hc]; discriminate|].
    apply poll_left_of_contains, (contains_lower "left"), Hc. }
  destruct (contains "RIGHT" expression_name) eqn:E3.
  { pose proof (replace_contains_new "RIGHT" "LEFT" expression_name
                  ltac:(discriminate) E3) as Hc.
    split; [eapply contains_nonempty; [|exact Hc]; discriminate|].
    apply poll_left_of_contains, (contains_lower "LEFT"), Hc. }
  destruct (endswith (lower expression_name) "_r") eqn:E4.
  { destruct (last_islower expression_name); (split; [apply app_char_nonempty|]).
    - apply poll_left_of_lower_suffix.
      apply (endswith_lower_drop_last "_" "r" "l"), E4.
    - apply poll_left_of_lower_suffix.
      apply (endswith_lower_drop_last "_" "r" "L"), E4. }
  destruct (endswith expression_name "R") eqn:E5; [|discriminate H].
  split; [apply app_char_nonempty|].
  apply poll_left_of_suffix, endswith_drop_last_app.
Qed.

(** C7, as the code has it.  For a name classified 'L' (resp. 'R') that
    carries one of the spellings [get_mirror_name] rewrites ('Left',
    'left', 'LEFT', or a final '_l', '_L', 'L'; resp. the right-hand
    ones), the mirror name is not empty and satisfies
    [poll_side_in_expression_name] for the opposite side.  The mirror of
    a right name is therefore classified 'L'; the mirror of a left name
    is classified 'R' as soon as it has lost every left marker. *)
Theorem get_mirror_name_opposite_side (expression_name : string) :
  (get_side expression_name = "L" ->
   has_left_marker expression_name = true ->
   get_mirror_name (get_side expression_name) expression_name <> EmptyString
   /\ poll_side_in_expression_name
        "R" (get_mirror_name (get_side expression_name) expression_name) = true
   /\ (poll_side_in_expression_name
         "L" (get_mirror_name (get_side expression_name) expression_name) = false ->
       get_side (get_mirror_name (get_side expression_name) expression_name) = "R"))
  /\ (get_side expression_name = "R" ->
      has_right_marker expression_name = true ->
      get_mirror_name (get_side expression_name) expression_name <> EmptyString
      /\ poll_side_in_expression_name
           "L" (get_mirror_name (get_side expression_name) expression_name) = true
      /\ get_side (get_mirror_name (get_side expression_name) expression_name) = "L").
Proof.
  split; intros Hs Hm; rewrite Hs.
  - destruct (get_mirror_name_left expression_name Hm) as [Hne Hp].
    repeat split; try assumption.
    intros Hl. now apply poll_right_get_side.
  - destruct (get_mirror_name_right expression_name Hm) as [Hne Hp].
    repeat split; try assumption.
    now apply poll_left_get_side.
Qed.

Lemma get_mirror_name_opposite_side_witness :
  (get_mirror_name (get_side "eyeBlinkLeft") "eyeBlinkLeft" <> EmptyString
   /\ poll_side_in_expression_name
        "R" (get_mirror_name (get_side "eyeBlinkLeft") "eyeBlinkLeft") = true)
  /\ (get_mirror_name (get_side "cheek_r") "cheek_r" <> EmptyString
      /\ poll_side_in_expression_name
           "L" (get_mirror_name (get_side "cheek_r") "cheek_r") = true
      /\ get_side (get_mirror_name (get_side "cheek_r") "cheek_r") = "L").
Proof.
  split.
  - pose proof (proj1 (get_mirror_name_opposite_side "eyeBlinkLeft")
                      eq_refl eq_refl) as H.
    split; [exact (proj1 H) | exact (proj1 (proj2 H))].
  - apply (get_mirror_name_opposite_side "cheek_r"); reflexivity.
Defined.

(** C7 as stated fails: 'LeFt' is classified 'L', and its mirror name is
    the empty string. *)
Lemma get_mirror_name_mixed_case_counterexample :
  get_side "LeFt" = "L"
  /\ ~ (get_mirror_name (get_side "LeFt") "LeFt" <> EmptyString
        /\ get_side (get_mirror_name (get_side "LeFt") "LeFt") = "R").
Proof.
  split; [reflexivity|].
  intros [H _]. apply H. reflexivity.
Qed.

Example get_side_ex1 : get_side "eyeBlinkLeft" = "L". Proof. reflexivity. Qed.
Example get_side_ex2 : get_side "mouthSmile_R" = "R". Proof. reflexivity. Qed.
Example get_side_ex3 : get_side "jawOpen" = "N". Proof. reflexivity. Qed.
Example get_mirror_ex1 : get_mirror_name "L" "eyeBlinkLeft" = "eyeBlinkRight".
Proof. reflexivity. Qed.
Example get_mirror_ex2 : get_mirror_name "R" "mouthSmile_r" = "mouthSmile_l".
Proof. reflexivity. Qed.
Example get_mirror_ex3 : get_mirror_name "L" "LeftLeft_L" = "RightRight_L".
Proof. reflexivity. Qed.
Example get_mirror_ex4 : get_side "Leftleft" = "L"
  /\ get_side (get_mirror_name "L" "Leftleft") = "L".
Proof. split; reflexivity. Qed.

End Sides.

(** ** Early returns *)

Section EarlyReturns.

Import FACEIT_OT_MoveExpressionItem.

Lemma get_in_range {A : Type} (l : list A) (i : Z) :
  (0 <= i < Z.of_nat (List.length l))%Z ->
  Collection.get l i = nth_error l (Z.to_nat i).
Proof.
  intros H. unfold Collection.get.
  destruct (0 <=? i)%Z eqn:E1; [|lia].
  destruct (i <? Z.of_nat (List.length l))%Z eqn:E2; [reflexivity|lia].
Qed.

Lemma nth_error_in_range {A : Type} (l : list A) (i : Z) :
  (0 <= i < Z.of_nat (List.length l))%Z ->
  exists x, nth_error l (Z.to_nat i) = Some x.
Proof.
  intros H. destruct (nth_error l (Z.to_nat i)) eqn:E; [eauto|].
  apply nth_error_None in E. lia.
Qed.

(** C8.  Asked to move the first item UP or the last item DOWN, the
    operator returns CANCELLED and leaves the session as it was: list
    order, frame fields and the keyframes of the overwrite, shape and
    corrective actions. *)
Theorem move_at_boundary_is_cancelled (direction : Direction) (st : Blend) :
  faceit_expression_list st <> [] ->
  (direction = UP /\ faceit_expression_list_index st = 0%Z)
  \/ (direction = DOWN
      /\ faceit_expression_list_index st
         = (Z.of_nat (List.length (faceit_expression_list st)) - 1)%Z) ->
  outcome (execute direction st) = Returned CANCELLED
  /\ final (execute direction st) = st.
Proof.
  intros Hne Hb.
  assert (Hlen : (0 < Z.of_nat (List.length (faceit_expression_list st)))%Z).
  { destruct (faceit_expression_list st); [easy | simpl; lia]. }
  unfold execute.
  destruct Hb as [[-> Hi] | [-> Hi]]; rewrite Hi.
  - rewrite get_in_range by lia.
    destruct (nth_error_in_range (faceit_expression_list st) 0 ltac:(lia)) as [x ->].
    replace ((0 + -1 =? -1)%Z) with true by reflexivity.
    rewrite orb_true_r. split; reflexivity.
  - rewrite get_in_range by lia.
    destruct (nth_error_in_range
                (faceit_expression_list st)
                (Z.of_nat (List.length (faceit_expression_list st)) - 1)
                ltac:(lia)) as [x ->].
    replace (Z.of_nat (List.length (faceit_expression_list st)) - 1 + 1)%Z
      with (Z.of_nat (List.length (faceit_expression_list st))) by lia.
    rewrite Z.eqb_refl. split; reflexivity.
Qed.

Lemma move_at_boundary_is_cancelled_witness :
  let st := Sample.session [Sample.exp "jawOpen" "N" 10; Sample.exp "cheek_L" "L" 20]
                           1 (Some [Sample.curve "location" [(10, 1); (20, 2)]%Z])
                           None None in
  outcome (execute DOWN st) = Returned CANCELLED /\ final (execute DOWN st) = st.
Proof.
  apply move_at_boundary_is_cancelled.
  - discriminate.
  - right. split; reflexivity.
Defined.

End EarlyReturns.

Section RemoveLast.
Context {addon : Addon}.

Import FACEIT_OT_RemoveExpressionItem.

(** C9.  With at most one entry in the list, the remove operator clears
    the whole expression set: the list is emptied, the shape action and
    the overwrite action are deleted, the frame range becomes 1..250 and
    the operator returns FINISHED. *)
Theorem remove_with_one_entry_clears (self : Props) (st : Blend) :
  (List.length (faceit_expression_list st) <= 1)%nat ->
  outcome (execute self st) = Returned FINISHED
  /\ faceit_expression_list (final (execute self st)) = []
  /\ faceit_shape_action (final (execute self st)) = None
  /\ overwrite_shape_action (final (execute self st)) = None
  /\ frame_start (final (execute self st)) = 1%Z
  /\ frame_end (final (execute self st)) = 250%Z.
Proof.
  intros H. unfold execute.
  cbn [faceit_expression_list with_auto_key].
  apply Nat.leb_le in H. rewrite H.
  unfold FACEIT_OT_ClearFaceitExpressions.execute, and_then.
  cbn [outcome finished final].
  repeat split; cbn;
    destruct (faceit_shape_action st) eqn:E1;
    destruct (overwrite_shape_action st) eqn:E2;
    cbn; rewrite ?E1, ?E2; reflexivity.
Qed.

End RemoveLast.

Lemma remove_with_one_entry_clears_witness :
  let st := Sample.session [Sample.exp "jawOpen" "N" 10] 0
                           (Some [Sample.curve "location" [(10, 1)]%Z])
                           (Some [Sample.curve "location" [(10, 1)]%Z]) None in
  let r := FACEIT_OT_RemoveExpressionItem.execute
             (FACEIT_OT_RemoveExpressionItem.mkProps EmptyString) st in
  outcome r = Returned FINISHED
  /\ faceit_expression_list (final r) = []
  /\ faceit_shape_action (final r) = None
  /\ overwrite_shape_action (final r) = None
  /\ frame_start (final r) = 1%Z
  /\ frame_end (final r) = 250%Z.
Proof.
  apply (remove_with_one_entry_clears (addon := Sample.addon)).
  simpl. lia.
Defined.

Section ImportGuards.
Context {addon : Addon}.

Import FACEIT_OT_AppendActionToFaceitRig.

(** C6.  With [load_custom_path] set, a path whose extension is not
    '.face', or that is not an existing file, makes the operator report
    an error and return CANCELLED with the session untouched. *)
Theorem import_rejects_bad_path (self : Props) (st : Blend) :
  load_custom_path self = true ->
  snd (OsPath.splitext (filepath self)) <> ".face"
  \/ OsPath.isfile (filepath self) st = false ->
  outcome (execute self st) = Returned CANCELLED
  /\ (exists message, reports (execute self st) = [("ERROR", message)])
  /\ final (execute self st) = st.
Proof.
  intros Hc Hbad. unfold execute. rewrite Hc. cbn [andb].
  destruct (String.eqb (snd (OsPath.splitext (filepath self))) ".face") eqn:E.
  - destruct Hbad as [Hbad | Hbad].
    + apply String.eqb_eq in E. contradiction.
    + rewrite Hbad. cbn. eauto.
  - cbn. eauto.
Qed.

End ImportGuards.

Lemma import_rejects_bad_path_witness :
  let self := FACEIT_OT_AppendActionToFaceitRig.mkProps
                FACEIT_OT_AppendActionToFaceitRig.ARKIT true
                FACEIT_OT_AppendActionToFaceitRig.OVERWRITE "faces/smile.json"
                FACEIT_OT_AppendActionToFaceitRig.Scale_AUTO
                FACEIT_OT_AppendActionToFaceitRig.GLOBAL [1; 1; 1]%Q true true false in
  let st := Sample.session [Sample.exp "jawOpen" "N" 10] 0 None None None in
  outcome (FACEIT_OT_AppendActionToFaceitRig.execute self st) = Returned CANCELLED
  /\ (exists message,
         reports (FACEIT_OT_AppendActionToFaceitRig.execute self st)
         = [("ERROR", message)])
  /\ final (FACEIT_OT_AppendActionToFaceitRig.execute self st) = st.
Proof.
  apply (import_rejects_bad_path (addon := Sample.addon)).
  - reflexivity.
  - left. vm_compute. discriminate.
Defined.

(** ** Moving an expression *)

Section Move.

Import FACEIT_OT_MoveExpressionItem.




Lemma update_at_length {A : Type} (i : nat) (f : A -> A) (l : list A) :
  List.length (Collection.update_at i f l) = List.length l.
Proof.
  revert i; induction l as [|x l IH]; intros [|i]; simpl; auto.
Qed.

Lemma nth_error_update_at {A : Type} (i pos : nat) (f : A -> A) (l : list A) :
  nth_error (Collection.update_at i f l) pos
  = if Nat.eqb i pos then option_map f (nth_error l pos) else nth_error l pos.
Proof.
  revert i pos; induction l as [|x l IH]; intros [|i] [|pos]; simpl; auto;
    destruct (Nat.eqb i pos); reflexivity.
Qed.

Lemma swap_slots_length (k : nat) (l : list Expression) :
  List.length (swap_slots k l) = List.length l.
Proof.
  revert k; induction l as [|x l IH]; intros [|k]; simpl; auto.
  destruct l; reflexivity.
Qed.

(** The three list steps of a move DOWN from position [k]. *)
Lemma move_down_list (k : nat) (l : list Expression) (a b : Expression) :
  nth_error l k = Some a ->
  nth_error l (S k) = Some b ->
  Collection.insert_at
    k (set_frame (frame a) b)
    (Collection.remove_at
       (S k) (Collection.update_at
                (S k) (set_frame (frame a))
                (Collection.update_at k (set_frame (frame b)) l)))
  = swap_slots k l.
Proof.
  revert l; induction k as [|k IH]; intros l Ha Hb.
  - destruct l as [|x [|y l]]; try discriminate.
    injection Ha as ->. injection Hb as ->. reflexivity.
  - destruct l as [|x l]; [discriminate|].
    cbn [Collection.update_at Collection.remove_at Collection.insert_at swap_slots].
    f_equal. apply IH; assumption.
Qed.

(** The three list steps of a move UP from position [S k]. *)
Lemma move_up_list (k : nat) (l : list Expression) (a b : Expression) :
  nth_error l k = Some a ->
  nth_error l (S k) = Some b ->
  Collection.insert_at
    (S k) (set_frame (frame b) a)
    (Collection.remove_at
       k (Collection.update_at
            k (set_frame (frame b))
            (Collection.update_at (S k) (set_frame (frame a)) l)))
  = swap_slots k l.
Proof.
  revert l; induction k as [|k IH]; intros l Ha Hb.
  - destruct l as [|x [|y l]]; try discriminate.
    injection Ha as ->. injection Hb as ->. reflexivity.
  - destruct l as [|x l]; [discriminate|].
    cbn [Collection.update_at Collection.remove_at Collection.insert_at swap_slots].
    f_equal. apply IH; assumption.
Qed.

(** The list steps of [execute]: frame fields first, then
    [expression_list.move(new_index, index)]. *)
Lemma move_list_steps (direction : Direction) (l : list Expression) (i : Z)
      (item neighbour : Expression) :
  let add_index := match direction with UP => (-1)%Z | DOWN => 1%Z end in
  let j := (i + add_index)%Z in
  (0 <= i < Z.of_nat (List.length l))%Z ->
  (0 <= j < Z.of_nat (List.length l))%Z ->
  nth_error l (Z.to_nat i) = Some item ->
  nth_error l (Z.to_nat j) = Some neighbour ->
  Collection.move
    j i (Collection.update_at
           (Z.to_nat j) (set_frame (frame item))
           (Collection.update_at
              (Z.to_nat i) (set_frame (frame neighbour)) l))
  = swap_slots (Z.to_nat (Z.min i j)) l.
Proof.
  intros add_index j Hi Hj Hitem Hnb.
  unfold Collection.move. rewrite !update_at_length.
  replace ((0 <=? j)%Z && (j <? Z.of_nat (List.length l))%Z
           && (0 <=? i)%Z && (i <? Z.of_nat (List.length l))%Z
           && negb (j =? i)%Z) with true
    by (symmetry; rewrite !andb_true_iff, negb_true_iff;
        repeat split; try lia; destruct direction; subst j add_index; lia).
  rewrite !nth_error_update_at, Nat.eqb_refl.
  replace (Nat.eqb (Z.to_nat i) (Z.to_nat j)) with false
    by (symmetry; apply Nat.eqb_neq; destruct direction; subst j add_index; lia).
  rewrite Hnb. cbn [option_map].
  destruct direction; subst j add_index.
  - (* UP: the neighbour is at i - 1 *)
    replace (Z.to_nat (Z.min i (i + -1))) with (Z.to_nat (i + -1)) by lia.
    replace (Z.to_nat i) with (S (Z.to_nat (i + -1))) in * by lia.
    rewrite <- (move_up_list (Z.to_nat (i + -1)) l neighbour item Hnb Hitem).
    reflexivity.
  - (* DOWN: the neighbour is at i + 1 *)
    replace (Z.to_nat (Z.min i (i + 1))) with (Z.to_nat i) by lia.
    replace (Z.to_nat (i + 1)) with (S (Z.to_nat i)) in * by lia.
    rewrite <- (move_down_list (Z.to_nat i) l item neighbour Hitem Hnb).
    reflexivity.
Qed.

Lemma position_in_range (n : nat) (i : Z) :
  (0 <= i)%Z -> position n i = Z.to_nat i.
Proof. intros H. unfold position. destruct (i <? 0)%Z eqn:E; [lia | reflexivity]. Qed.

Lemma string_length_app (a b : string) :
  String.length (a ++ b) = (String.length a + String.length b)%nat.
Proof. induction a as [|c a IH]; simpl; [reflexivity | now rewrite IH]. Qed.










Example move_up_example :
  map (fun e => (name e, frame e))
      (faceit_expression_list (final (execute UP Samples.three_slots)))
  = [("cheek_L", 10%Z); ("jawOpen", 20%Z); ("cheek_R", 30%Z)].
Proof. reflexivity. Qed.

End Move.

(** ** Removing an expression *)

Section Remove.
Context {addon : Addon}.

Import FACEIT_OT_RemoveExpressionItem.








End Remove.


(** ** Rest keys on the slot boundaries *)

Section RestKeys.
Context {addon : Addon}.














Section ImportedCurves.

Import FACEIT_OT_AppendActionToFaceitRig.

Hypothesis populate_keeps_rows :
  forall fc kf_data k,
    In k kf_data ->
    In k (keyframe_points (populate_keyframe_points_from_np_array fc kf_data)).

Hypothesis populate_keeps_channel :
  forall fc kf_data,
    data_path (populate_keyframe_points_from_np_array fc kf_data) = data_path fc
    /\ array_index (populate_keyframe_points_from_np_array fc kf_data)
       = array_index fc.





End ImportedCurves.

End RestKeys.




Example force_zero_frames_example :
  option_map (map (fun fc => map co0 (keyframe_points fc)))
             (overwrite_shape_action
                (final (FACEIT_OT_ForceZeroFrames.execute
                          (Sample.session
                             [Sample.exp "jawOpen" "N" 10; Sample.exp "cheek_L" "L" 20] 0
                             (Some [Sample.curve "scale" [(10, 2); (20, 3)]%Z])
                             None None))))
  = Some [[1; 10; 11; 20; 21]%Z].
Proof. reflexivity. Qed.

Example import_rest_keys_example :
  map (fun fc => (array_index fc, keyframe_points fc))
      (fst (FACEIT_OT_AppendActionToFaceitRig.build_new_shape_action
              (mkFaceFile [1; 1; 1]%Q [] [("jawOpen", mkExpressionData None None None)]
                          [("pose.bones[" ++ dquote ++ "jaw_master" ++ dquote ++ "].scale",
                            [(1%Z, [mkKey 10 (3 # 2)])])])))
  = [(0%Z, [mkKey 1 1; mkKey 11 1]);
     (1%Z, [mkKey 10 (3 # 2); mkKey 1 1; mkKey 11 1]);
     (2%Z, [mkKey 1 1; mkKey 11 1])].
Proof. reflexivity. Qed.

(** ** The slot invariant *)

Section SlotInvariant.
Context {addon : Addon}.

Lemma final_and_then (r : Run) (k : Blend -> Run) :
  final (and_then r k)
  = match outcome r with
    | Returned _ => final (k (final r))
    | Raised _ => final r
    end.
Proof. unfold and_then. destruct (outcome r); reflexivity. Qed.



Lemma eye_blinks_list (p : FACEIT_OT_ProceduralEyeBlinks.Props) (st : Blend) :
  faceit_expression_list (final (FACEIT_OT_ProceduralEyeBlinks.execute p st))
  = faceit_expression_list st.
Proof.
  unfold FACEIT_OT_ProceduralEyeBlinks.execute.
  cbn [faceit_expression_list with_auto_key with_ow_action with_shape_action].
  destruct (Collection.get (faceit_expression_list st) _); [|reflexivity].
  destruct (eye_blink_pose _ _ _ _). reflexivity.
Qed.





Section Add.

Import FACEIT_OT_AddExpressionItem.

Hypothesis fresh_names :
  forall n l, ~ In (get_expression_name_double_entries n l) (map name l).

Lemma finish_list (auto_key ow_action : bool) (st : Blend) :
  faceit_expression_list (final (finish auto_key ow_action st))
  = faceit_expression_list st.
Proof.
  unfold finish. cbn [final finished].
  destruct ow_action; [|reflexivity].
  destruct (overwrite_shape_action (with_auto_key auto_key st)); reflexivity.
Qed.

Lemma optional_eye_blinks_list (c : bool) (side0 : string) (st : Blend) :
  faceit_expression_list
    (final (if c then eye_blinks side0 st else finished st))
  = faceit_expression_list st.
Proof. destruct c; [apply eye_blinks_list | reflexivity]. Qed.





(** *** Move *)







(** *** Remove *)











(** *** Import *)







(** *** Reachable sessions *)





End Add.

End SlotInvariant.





Example add_with_mirror_example :
  map (fun e => (name e, frame e))
      (faceit_expression_list
         (final (FACEIT_OT_AddExpressionItem.execute
                   (FACEIT_OT_AddExpressionItem.mkProps
                      "cheek_L" (-1) EmptyString "L" true true NONE)
                   (Sample.session [] 0 None None None))))
  = [("cheek_L", 10%Z); ("cheek_R", 20%Z)].
Proof. reflexivity. Qed.

(** ** Export followed by import *)

Section RoundTrip.
Context {addon : Addon}.

Hypothesis unused_name_kept :
  forall n l, ~ In n (map name l) -> get_expression_name_double_entries n l = n.


Lemma dict_get_set_same {V : Type} (k : string) (v : V) (d : list (string * V)) :
  dict_get String.eqb k (dict_set String.eqb k v d) = Some v.
Proof.
  induction d as [|[k' v'] d IH]; cbn [dict_set dict_get].
  - now rewrite String.eqb_refl.
  - destruct (String.eqb k' k) eqn:E; cbn [dict_get]; rewrite E; auto.
Qed.



Lemma get_last {A : Type} (l : list A) (x : A) :
  Collection.get (l ++ [x]) (-1) = Some x.
Proof.
  unfold Collection.get. rewrite length_app. cbn [List.length].
  destruct (0 <=? -1)%Z eqn:E; [lia|]. cbn [andb].
  destruct ((- Z.of_nat (List.length l + 1) <=? -1)%Z && (-1 <? 0)%Z) eqn:E2.
  - replace (Z.to_nat (-1 + Z.of_nat (List.length l + 1))) with (List.length l) by lia.
    rewrite nth_error_app2 by lia. now rewrite Nat.sub_diag.
  - apply andb_false_iff in E2 as [E2 | E2].
    + apply Z.leb_gt in E2. lia.
    + discriminate E2.
Qed.












End RoundTrip.

Lemma sample_unique_name_kept (n : string) (l : list Expression) :
  ~ In n (map name l) -> Sample.unique_name n l = n.
Proof.
  intros H. unfold Sample.unique_name.
  destruct (existsb (String.eqb n) (map name l)) eqn:E; [|reflexivity].
  apply existsb_exists in E as [x [Hx E]]. apply String.eqb_eq in E. subst x.
  contradiction.
Qed.



Example append_import_example :
  let st := final (FACEIT_OT_ExportExpressionsToJson.execute
                     Samples.export_blink Samples.blink) in
  let self := FACEIT_OT_AppendActionToFaceitRig.mkProps
                FACEIT_OT_AppendActionToFaceitRig.ARKIT true
                FACEIT_OT_AppendActionToFaceitRig.APPEND "faces/blink.face"
                FACEIT_OT_AppendActionToFaceitRig.Scale_NONE
                FACEIT_OT_AppendActionToFaceitRig.GLOBAL [1; 1; 1]%Q true true false in
  map (fun e => (side e, frame e, procedural e))
      (faceit_expression_list
         (final (FACEIT_OT_AppendActionToFaceitRig.execute self st)))
  = [("L", 10%Z, NONE); ("N", 20%Z, NONE); ("L", 30%Z, EYEBLINKS); ("N", 40%Z, NONE)].
Proof. vm_compute. reflexivity. Qed.

(** ** Mirror names of suffix-marked names *)

Section MirrorRoundTrip.

Lemma snoc_cases (s : string) :
  s = EmptyString \/ exists q c, s = q ++ String c EmptyString.
Proof.
  induction s as [|a s IH]; [now left|]. right.
  destruct IH as [-> | [q [c ->]]].
  - exists EmptyString, a. reflexivity.
  - exists (String a q), c. reflexivity.
Qed.

Lemma drop_last_snoc (q : string) (c : ascii) :
  drop_last (q ++ String c EmptyString) = q.
Proof.
  induction q as [|a q IH]; [reflexivity|].
  cbn [append]. destruct (q ++ String c EmptyString) eqn:E.
  - destruct q; discriminate E.
  - change (String a (drop_last (String a0 s)) = String a q). now rewrite IH.
Qed.

Lemma last_islower_snoc (q : string) (c : ascii) :
  last_islower (q ++ String c EmptyString) = is_lower c.
Proof.
  induction q as [|a q IH]; [reflexivity|].
  cbn [append]. destruct (q ++ String c EmptyString) eqn:E.
  - destruct q; discriminate E.
  - cbn [last_islower]. exact IH.
Qed.

Lemma lower_app (a b : string) : lower (a ++ b) = lower a ++ lower b.
Proof. induction a as [|c a IH]; cbn; [reflexivity | now rewrite IH]. Qed.

Lemma eqb_snoc (a b : string) (y z : ascii) :
  String.eqb (a ++ String y EmptyString) (b ++ String z EmptyString)
  = String.eqb a b && Ascii.eqb y z.
Proof.
  revert b; induction a as [|c a IH]; intros [|d b]; cbn.
  - destruct (Ascii.eqb y z); reflexivity.
  - destruct (Ascii.eqb y d); [|reflexivity]. destruct b; reflexivity.
  - destruct (Ascii.eqb c z); [|reflexivity]. destruct a; reflexivity.
  - destruct (Ascii.eqb c d); [apply IH | reflexivity].
Qed.

Lemma endswith_nil_snoc (b : string) (z : ascii) :
  endswith EmptyString (b ++ String z EmptyString) = false.
Proof. destruct b; reflexivity. Qed.

(** A string ends with a non-empty suffix when the last characters
    agree and the rest ends with the rest. *)
Lemma endswith_snoc (a b : string) (y z : ascii) :
  endswith (a ++ String y EmptyString) (b ++ String z EmptyString)
  = Ascii.eqb y z && endswith a b.
Proof.
  induction a as [|c a IH].
  - destruct b as [|d b]; cbn.
    + destruct (Ascii.eqb y z); reflexivity.
    + destruct (Ascii.eqb y d), (Ascii.eqb y z), b; reflexivity.
  - cbn [append endswith].
    change (String c (a ++ String y EmptyString))
      with (String c a ++ String y EmptyString).
    rewrite eqb_snoc, IH.
    destruct (Ascii.eqb y z); cbn; [|now rewrite andb_false_r].
    now rewrite andb_true_r.
Qed.

Lemma startswith_snoc (p s : string) (y : ascii) :
  startswith p (s ++ String y EmptyString) = true ->
  startswith p s = true \/ p = s ++ String y EmptyString.
Proof.
  revert p; induction s as [|c s IH]; intros [|d p] H; try (now left).
  - cbn in H. apply andb_true_iff in H as [Hd Hp].
    apply Ascii.eqb_eq in Hd. subst d. destruct p; [now right | discriminate].
  - cbn in H. apply andb_true_iff in H as [Hd Hp].
    apply Ascii.eqb_eq in Hd. subst d.
    destruct (IH p Hp) as [Hs | ->].
    + left. cbn. now rewrite Ascii.eqb_refl.
    + now right.
Qed.

(** An occurrence in [s ++ y] lies in [s] or ends the string. *)
Lemma contains_snoc (p s : string) (y : ascii) :
  contains p (s ++ String y EmptyString) = true ->
  contains p s = true \/ endswith (s ++ String y EmptyString) p = true.
Proof.
  induction s as [|c s IH]; intros H.
  - cbn [append] in H. destruct p as [|d [|e p]].
    + now left.
    + cbn in H. rewrite !orb_false_r in H. apply andb_true_iff in H as [H _].
      apply Ascii.eqb_eq in H. subst d. right. apply endswith_refl.
    + cbn in H. rewrite !andb_false_r in H. discriminate.
  - cbn [append contains] in H. apply orb_true_iff in H as [H | H].
    + change (String c (s ++ String y EmptyString))
        with (String c s ++ String y EmptyString) in H.
      destruct (startswith_snoc _ _ _ H) as [Hs | ->].
      * left. now apply contains_startswith.
      * right. apply endswith_refl.
    + destruct (IH H) as [Hs | He].
      * left. now apply contains_skip.
      * right. cbn [append]. now apply endswith_skip.
Qed.

Lemma startswith_app_r (p s t : string) :
  startswith p s = true -> startswith p (s ++ t) = true.
Proof.
  revert p; induction s as [|c s IH]; intros [|d p] H; try easy.
  cbn in *. apply andb_true_iff in H as [-> H]. cbn. now apply IH.
Qed.

Lemma contains_app_r (p s t : string) :
  contains p s = true -> contains p (s ++ t) = true.
Proof.
  induction s as [|c s IH]; intros H.
  - destruct p; [destruct t; reflexivity | discriminate H].
  - cbn [contains] in H. apply orb_true_iff in H as [H | H].
    + apply contains_startswith. now apply startswith_app_r.
    + cbn [append]. apply contains_skip, IH, H.
Qed.

Lemma not_contains_cased (p s : string) :
  contains (lower p) (lower s) = false -> contains p s = false.
Proof.
  intros H. destruct (contains p s) eqn:E; [|reflexivity].
  apply contains_lower in E. congruence.
Qed.

Lemma lower_char_l (c : ascii) :
  lower_char c = "l"%char -> c = "l"%char \/ c = "L"%char.
Proof.
  destruct c as [[] [] [] [] [] [] [] []]; vm_compute; intros H;
    try discriminate H; auto.
Qed.

Lemma lower_char_r (c : ascii) :
  lower_char c = "r"%char -> c = "r"%char \/ c = "R"%char.
Proof.
  destruct c as [[] [] [] [] [] [] [] []]; vm_compute; intros H;
    try discriminate H; auto.
Qed.

(** A name without 'left' and 'right' keeps none when its last
    character becomes an l or an r. *)
Lemma no_word_after_snoc (w : string) (t : ascii) (q : string) (c r : ascii) :
  contains (w ++ String t EmptyString) (q ++ String c EmptyString) = false ->
  Ascii.eqb r t = false ->
  contains (w ++ String t EmptyString) (q ++ String r EmptyString) = false.
Proof.
  intros H Hr.
  destruct (contains (w ++ String t EmptyString) (q ++ String r EmptyString)) eqn:E;
    [|reflexivity].
  destruct (contains_snoc _ _ _ E) as [Hq | He].
  - apply (contains_app_r _ _ (String c EmptyString)) in Hq. congruence.
  - rewrite endswith_snoc, Hr in He. discriminate He.
Qed.

Lemma no_side_word_snoc (q : string) (c r : ascii) :
  no_side_word (q ++ String c EmptyString) ->
  Ascii.eqb (lower_char r) "t" = false ->
  no_side_word (q ++ String r EmptyString).
Proof.
  intros [Hl Hr] Ht. rewrite lower_app in Hl, Hr. unfold no_side_word.
  rewrite lower_app. split.
  - exact (no_word_after_snoc "lef" "t" _ _ _ Hl Ht).
  - exact (no_word_after_snoc "righ" "t" _ _ _ Hr Ht).
Qed.

Lemma no_side_word_cased (s : string) :
  no_side_word s ->
  contains "Left" s = false /\ contains "left" s = false /\ contains "LEFT" s = false
  /\ contains "Right" s = false /\ contains "right" s = false
  /\ contains "RIGHT" s = false.
Proof.
  intros [Hl Hr]. repeat split; apply not_contains_cased; assumption.
Qed.

Lemma lower_suffix_snoc (q : string) (c z : ascii) :
  endswith (lower (q ++ String c EmptyString)) (String "_" (String z EmptyString))
  = Ascii.eqb (lower_char c) z && endswith (lower q) "_".
Proof.
  rewrite lower_app.
  exact (endswith_snoc (lower q) "_" (lower_char c) z).
Qed.

Lemma endswith_empty (s : string) : endswith s EmptyString = true.
Proof.
  induction s as [|a s IH]; [reflexivity|].
  cbn [endswith]. rewrite IH. apply orb_true_r.
Qed.

Lemma suffix_snoc (q : string) (c z : ascii) :
  endswith (q ++ String c EmptyString) (String z EmptyString) = Ascii.eqb c z.
Proof.
  pose proof (endswith_snoc q EmptyString c z) as H. cbn [append] in H.
  rewrite H, endswith_empty. apply andb_true_r.
Qed.

Lemma get_side_snoc (q : string) (c : ascii) :
  no_side_word (q ++ String c EmptyString) ->
  get_side (q ++ String c EmptyString)
  = if Ascii.eqb (lower_char c) "l" && endswith (lower q) "_" || Ascii.eqb c "L"
    then "L"
    else if Ascii.eqb (lower_char c) "r" && endswith (lower q) "_" || Ascii.eqb c "R"
    then "R" else "N".
Proof.
  intros [Hl Hr]. unfold get_side.
  rewrite Hl, Hr, !lower_suffix_snoc, !suffix_snoc. reflexivity.
Qed.

Lemma get_mirror_name_left_snoc (q : string) (c : ascii) :
  no_side_word (q ++ String c EmptyString) ->
  get_mirror_name "L" (q ++ String c EmptyString)
  = if Ascii.eqb (lower_char c) "l" && endswith (lower q) "_"
    then if is_lower c then q ++ "r" else q ++ "R"
    else if Ascii.eqb c "L" then q ++ "R" else "".
Proof.
  intros H. destruct (no_side_word_cased _ H) as (H1 & H2 & H3 & _).
  unfold get_mirror_name. cbn [String.eqb Ascii.eqb Bool.eqb].
  rewrite H1, H2, H3, lower_suffix_snoc, suffix_snoc, last_islower_snoc,
    drop_last_snoc.
  reflexivity.
Qed.

Lemma get_mirror_name_right_snoc (q : string) (c : ascii) :
  no_side_word (q ++ String c EmptyString) ->
  get_mirror_name "R" (q ++ String c EmptyString)
  = if Ascii.eqb (lower_char c) "r" && endswith (lower q) "_"
    then if is_lower c then q ++ "l" else q ++ "L"
    else if Ascii.eqb c "R" then q ++ "L" else "".
Proof.
  intros H. destruct (no_side_word_cased _ H) as (_ & _ & _ & H1 & H2 & H3).
  unfold get_mirror_name. cbn [String.eqb Ascii.eqb Bool.eqb].
  rewrite H1, H2, H3, lower_suffix_snoc, suffix_snoc, last_islower_snoc,
    drop_last_snoc.
  reflexivity.
Qed.

Lemma get_side_nonempty (s : string) : get_side s <> "N" -> s <> "".
Proof. intros H ->. now apply H. Qed.

(** The mirror of a left name that carries its side only as a suffix:
    a right name, again without side word, whose mirror is the name. *)
Lemma mirror_of_left_suffix (s : string) :
  no_side_word s -> get_side s = "L" ->
  no_side_word (get_mirror_name "L" s)
  /\ get_side (get_mirror_name "L" s) = "R"
  /\ get_mirror_name "R" (get_mirror_name "L" s) = s.
Proof.
  intros Hn Hs.
  destruct (snoc_cases s) as [-> | [q [c ->]]]; [discriminate Hs|].
  rewrite (get_side_snoc _ _ Hn) in Hs.
  pose proof (get_mirror_name_left_snoc _ _ Hn) as Em. revert Em.
  generalize (get_mirror_name "L" (q ++ String c EmptyString)). intros m Em.
  destruct (endswith (lower q) "_") eqn:Eu;
    destruct (Ascii.eqb (lower_char c) "l") eqn:El;
    try (apply Ascii.eqb_eq in El; destruct (lower_char_l _ El) as [-> | ->]);
    cbn in Em, Hs; try discriminate Hs;
    try change (is_lower "l") with true in Em;
    try change (is_lower "L") with false in Em;
    try change (is_lower "r") with true in Em;
    try change (is_lower "R") with false in Em;
    cbv iota in Em;
    try (destruct (Ascii.eqb c "L") eqn:Ec;
         [apply Ascii.eqb_eq in Ec; subst c; try discriminate El
         |cbn in Hs;
          destruct (Ascii.eqb (lower_char c) "r"), (Ascii.eqb c "R");
          discriminate Hs]);
    subst m;
    match goal with
    | |- no_side_word (q ++ String ?r EmptyString) /\ _ =>
        assert (Hm : no_side_word (q ++ String r EmptyString))
          by (now apply (no_side_word_snoc q _ r Hn));
        split; [exact Hm|];
        rewrite (get_side_snoc _ _ Hm), (get_mirror_name_right_snoc _ _ Hm), Eu;
        split; reflexivity
    end.
Qed.

Lemma mirror_of_right_suffix (s : string) :
  no_side_word s -> get_side s = "R" ->
  no_side_word (get_mirror_name "R" s)
  /\ get_side (get_mirror_name "R" s) = "L"
  /\ get_mirror_name "L" (get_mirror_name "R" s) = s.
Proof.
  intros Hn Hs.
  destruct (snoc_cases s) as [-> | [q [c ->]]]; [discriminate Hs|].
  rewrite (get_side_snoc _ _ Hn) in Hs.
  pose proof (get_mirror_name_right_snoc _ _ Hn) as Em. revert Em.
  generalize (get_mirror_name "R" (q ++ String c EmptyString)). intros m Em.
  destruct (endswith (lower q) "_") eqn:Eu;
    destruct (Ascii.eqb (lower_char c) "r") eqn:El;
    try (apply Ascii.eqb_eq in El; destruct (lower_char_r _ El) as [-> | ->]);
    cbn in Em, Hs; try discriminate Hs;
    try change (is_lower "l") with true in Em;
    try change (is_lower "L") with false in Em;
    try change (is_lower "r") with true in Em;
    try change (is_lower "R") with false in Em;
    cbv iota in Em;
    try (destruct (Ascii.eqb c "R") eqn:Ec;
         [apply Ascii.eqb_eq in Ec; subst c; try discriminate El
         |cbn in Hs;
          destruct (Ascii.eqb (lower_char c) "l"), (Ascii.eqb c "L");
          discriminate Hs]);
    subst m;
    match goal with
    | |- no_side_word (q ++ String ?r EmptyString) /\ _ =>
        assert (Hm : no_side_word (q ++ String r EmptyString))
          by (now apply (no_side_word_snoc q _ r Hn));
        split; [exact Hm|];
        rewrite (get_side_snoc _ _ Hm), (get_mirror_name_left_snoc _ _ Hm), Eu;
        split; reflexivity
    end.
Qed.

End MirrorRoundTrip.

(** X1. For an expression name that spells its side only as a suffix
    ('_l', '_L', 'L', resp. '_r', '_R', 'R': neither 'left' nor 'right'
    occurs in it in any case), [get_mirror_name] is an involution that
    flips the side: the mirror of a left name is classified 'R' by
    [get_side] and its own mirror is the name again, and likewise from
    the right. *)
Theorem mirror_name_round_trip (expression_name : string) :
  no_side_word expression_name ->
  (get_side expression_name = "L" ->
   get_side (get_mirror_name "L" expression_name) = "R"
   /\ get_mirror_name "R" (get_mirror_name "L" expression_name) = expression_name)
  /\ (get_side expression_name = "R" ->
      get_side (get_mirror_name "R" expression_name) = "L"
      /\ get_mirror_name "L" (get_mirror_name "R" expression_name) = expression_name).
Proof.
  intros Hn. split; intros Hs.
  - exact (proj2 (mirror_of_left_suffix _ Hn Hs)).
  - exact (proj2 (mirror_of_right_suffix _ Hn Hs)).
Qed.

Lemma mirror_name_round_trip_witness :
  (get_side (get_mirror_name "L" "mouthSmile_L") = "R"
   /\ get_mirror_name "R" (get_mirror_name "L" "mouthSmile_L") = "mouthSmile_L")
  /\ (get_side (get_mirror_name "R" "cheekPuffR") = "L"
      /\ get_mirror_name "L" (get_mirror_name "R" "cheekPuffR") = "cheekPuffR").
Proof.
  split.
  - apply (mirror_name_round_trip "mouthSmile_L"); [split; reflexivity | reflexivity].
  - apply (mirror_name_round_trip "cheekPuffR"); [split; reflexivity | reflexivity].
Defined.

(** ** The callbacks of the motion capture properties *)

Section Mocap.

Import MocapSceneProperties.

Lemma record_items_set (flag : bool) (items : list MOM_Item) :
  record_items flag true items = record_others flag items.
Proof.
  induction items as [|item rest IH]; [reflexivity|].
  cbn [record_items negb record_others map].
  fold (record_others flag rest). rewrite IH.
  destruct (String.eqb (osc_address item) "/W"); reflexivity.
Qed.

Lemma record_items_unset (flag : bool) (items : list MOM_Item) :
  no_shape_key_item items -> record_items flag false items = items.
Proof.
  induction items as [|item rest IH]; intros H; [reflexivity|].
  cbn [record_items negb]. rewrite (H item (or_introl eq_refl)).
  rewrite IH; [reflexivity|]. intros x Hx. apply H. now right.
Qed.

Lemma record_items_first (flag : bool) (before after : list MOM_Item) (w : MOM_Item) :
  no_shape_key_item before -> osc_address w = "/W" ->
  record_items flag false (before ++ w :: after)
  = (before ++ set_record flag w :: record_others flag after)%list.
Proof.
  intros Hb Hw. induction before as [|item rest IH].
  - cbn [app record_items negb]. rewrite Hw. cbn [String.eqb Ascii.eqb Bool.eqb].
    now rewrite record_items_set.
  - cbn [app record_items negb]. rewrite (Hb item (or_introl eq_refl)).
    rewrite IH; [reflexivity|]. intros x Hx. apply Hb. now right.
Qed.

(** X2. [update_record_face_cap] switches recording from the first
    item with the address '/W' on: that item and every later item with
    another address get the value of [faceit_record_face_cap]; the
    items before it and the later '/W' items keep theirs.  Without a
    '/W' item the update changes nothing. *)
Theorem update_record_face_cap_from_first_shape_key_item
        (faceit_record_face_cap : bool) (MOM_Items : list MOM_Item) :
  (no_shape_key_item MOM_Items ->
   update_record_face_cap faceit_record_face_cap MOM_Items = MOM_Items)
  /\ (forall before w after,
        MOM_Items = (before ++ w :: after)%list ->
        no_shape_key_item before -> osc_address w = "/W" ->
        update_record_face_cap faceit_record_face_cap MOM_Items
        = (before ++ set_record faceit_record_face_cap w
             :: record_others faceit_record_face_cap after)%list).
Proof.
  split.
  - apply record_items_unset.
  - intros before w after -> Hb Hw. now apply record_items_first.
Qed.

Lemma update_record_face_cap_from_first_shape_key_item_witness :
  update_record_face_cap true [mkMOM_Item "/HR" false; mkMOM_Item "/HT" false]
  = [mkMOM_Item "/HR" false; mkMOM_Item "/HT" false]
  /\ update_record_face_cap
       true [mkMOM_Item "/HR" false; mkMOM_Item "/W" false;
             mkMOM_Item "/ELR" false; mkMOM_Item "/W" false]
     = [mkMOM_Item "/HR" false; mkMOM_Item "/W" true;
        mkMOM_Item "/ELR" true; mkMOM_Item "/W" false].
Proof.
  split.
  - apply (update_record_face_cap_from_first_shape_key_item
             true [mkMOM_Item "/HR" false; mkMOM_Item "/HT" false]).
    intros item [<- | [<- | []]]; reflexivity.
  - apply (proj2 (update_record_face_cap_from_first_shape_key_item
                    true [mkMOM_Item "/HR" false; mkMOM_Item "/W" false;
                          mkMOM_Item "/ELR" false; mkMOM_Item "/W" false])
                 [mkMOM_Item "/HR" false] (mkMOM_Item "/W" false)
                 [mkMOM_Item "/ELR" false; mkMOM_Item "/W" false]).
    + reflexivity.
    + intros item [<- | []]; reflexivity.
    + reflexivity.
Defined.

(** X3. [head_action_poll] on an action that is not called
    'faceit_shape_action': for an armature as head target it is the test
    of [rig_action_poll]; for any other target it accepts the actions
    without a pose bone curve.  An action without curves is therefore
    offered for every target, and one with curves for exactly one kind
    of target. *)
Theorem head_action_poll_by_target
        (head_obj : HeadObject) (action_name : string) (action : Action) :
  String.eqb action_name "faceit_shape_action" = false ->
  (object_type head_obj = "ARMATURE" ->
   head_action_poll (Some head_obj) action_name action
   = Some (rig_action_poll action))
  /\ (object_type head_obj <> "ARMATURE" ->
      head_action_poll (Some head_obj) action_name action
      = Some (negb (any_data_path "pose.bones" action)))
  /\ (action = [] ->
      head_action_poll (Some head_obj) action_name action = Some true)
  /\ (action <> [] ->
      forall other,
        String.eqb (object_type head_obj) "ARMATURE"
        = negb (String.eqb (object_type other) "ARMATURE") ->
        head_action_poll (Some other) action_name action
        = option_map negb (head_action_poll (Some head_obj) action_name action)).
Proof.
  intros Hn. unfold head_action_poll, rig_action_poll. rewrite Hn. cbn [orb].
  repeat split.
  - intros ->. reflexivity.
  - intros Ht. apply String.eqb_neq in Ht. rewrite Ht.
    destruct action; cbn [List.length Nat.eqb]; [reflexivity|].
    now rewrite orb_false_r.
  - intros ->. destruct (String.eqb (object_type head_obj) "ARMATURE"); reflexivity.
  - intros Ha other ->. destruct action as [|fc action]; [contradiction|].
    cbn [List.length Nat.eqb]. rewrite !orb_false_r.
    destruct (String.eqb (object_type other) "ARMATURE"); cbn [negb option_map];
      [|reflexivity].
    now rewrite negb_involutive.
Qed.

Lemma head_action_poll_by_target_witness :
  head_action_poll (Some (mkHeadObject "ARMATURE" true ["head"])) "head_action"
                   [mkFCurve "pose.bones[.head.].rotation_euler" 0 []]
  = Some true
  /\ head_action_poll (Some (mkHeadObject "MESH" true [])) "head_action"
                      [mkFCurve "pose.bones[.head.].rotation_euler" 0 []]
     = Some false
  /\ head_action_poll (Some (mkHeadObject "MESH" true [])) "head_action" []
     = Some true.
Proof.
  split; [|split].
  - exact (proj1 (head_action_poll_by_target
                    (mkHeadObject "ARMATURE" true ["head"]) "head_action"
                    [mkFCurve "pose.bones[.head.].rotation_euler" 0 []] eq_refl)
                 eq_refl).
  - refine (proj1 (proj2 (head_action_poll_by_target
                            (mkHeadObject "MESH" true []) "head_action"
                            [mkFCurve "pose.bones[.head.].rotation_euler" 0 []]
                            eq_refl)) _).
    discriminate.
  - exact (proj1 (proj2 (proj2 (head_action_poll_by_target
                                  (mkHeadObject "MESH" true []) "head_action" []
                                  eq_refl))) eq_refl).
Defined.

(** X4. After [update_head_target_object] a head target has animation
    data, and with an armature as target the sub target is empty or
    names one of its pose bones: a bone name the armature does not have
    is cleared.  For any other target, and without target, the sub
    target is kept. *)
Theorem update_head_target_object_sub_target
        (faceit_head_target_object : option HeadObject)
        (faceit_head_sub_target : string) :
  match faceit_head_target_object,
        update_head_target_object faceit_head_target_object faceit_head_sub_target
  with
  | Some head_obj, (Some head_obj', sub_target) =>
      animation_data head_obj' = true
      /\ object_type head_obj' = object_type head_obj
      /\ pose_bone_names head_obj' = pose_bone_names head_obj
      /\ (if String.eqb (object_type head_obj) "ARMATURE"
          then sub_target = ""
               \/ (sub_target = faceit_head_sub_target
                   /\ In sub_target (pose_bone_names head_obj))
          else sub_target = faceit_head_sub_target)
  | None, (None, sub_target) => sub_target = faceit_head_sub_target
  | _, _ => False
  end.
Proof.
  destruct faceit_head_target_object as [head_obj|]; [|reflexivity].
  unfold update_head_target_object.
  set (h := if negb (animation_data head_obj) then _ else head_obj).
  assert (Hh : animation_data h = true /\ object_type h = object_type head_obj
               /\ pose_bone_names h = pose_bone_names head_obj)
    by (subst h; destruct (animation_data head_obj) eqn:E; cbn; auto).
  destruct Hh as (Ha & Ht & Hb). rewrite Ht, Hb.
  destruct (String.eqb faceit_head_sub_target "") eqn:Es; cbn [negb andb].
  - repeat split; try assumption.
    destruct (String.eqb (object_type head_obj) "ARMATURE"); [|reflexivity].
    left. now apply String.eqb_eq.
  - destruct (String.eqb (object_type head_obj) "ARMATURE"); cbn [andb].
    + repeat split; try assumption.
      destruct (existsb (String.eqb faceit_head_sub_target) (pose_bone_names head_obj))
               eqn:Ee; [|now left].
      right. split; [reflexivity|].
      apply existsb_exists in Ee as [b [Hin Hb']].
      apply String.eqb_eq in Hb'. now subst b.
    + repeat split; assumption.
Qed.

End Mocap.

(** ** More on the add operator *)

Section AddMore.
Context {addon : Addon}.

Import FACEIT_OT_AddExpressionItem.

Lemma finish_index (auto_key ow_action : bool) (st : Blend) :
  faceit_expression_list_index (final (finish auto_key ow_action st))
  = faceit_expression_list_index st.
Proof.
  unfold finish. cbn [final finished].
  destruct ow_action; [|reflexivity].
  destruct (overwrite_shape_action (with_auto_key auto_key st)); reflexivity.
Qed.

Lemma finish_outcome (auto_key ow_action : bool) (st : Blend) :
  outcome (finish auto_key ow_action st) = Returned FINISHED.
Proof. reflexivity. Qed.

Lemma get_last_nonempty {A : Type} (l : list A) :
  l <> [] -> exists x, Collection.get l (-1) = Some x.
Proof.
  intros H. destruct (exists_last H) as [l' [x ->]].
  exists x. apply get_last.
Qed.

(** The eye blink operator, called for the last item, finds it. *)
Lemma eye_blinks_finishes (side0 : string) (st : Blend) :
  faceit_expression_list st <> [] ->
  outcome (eye_blinks side0 st) = Returned FINISHED.
Proof.
  intros H. unfold eye_blinks, FACEIT_OT_ProceduralEyeBlinks.execute.
  cbn [faceit_expression_list with_auto_key with_ow_action with_shape_action
       FACEIT_OT_ProceduralEyeBlinks.expression_index].
  destruct (get_last_nonempty _ H) as [x ->].
  destruct (eye_blink_pose _ _ _ _). reflexivity.
Qed.

Lemma optional_eye_blinks_finishes (c : bool) (side0 : string) (st : Blend) :
  faceit_expression_list st <> [] ->
  outcome (if c then eye_blinks side0 st else finished st) = Returned FINISHED.
Proof. intros H. destruct c; [now apply eye_blinks_finishes | reflexivity]. Qed.

Lemma and_then_finished (r : Run) (k : Blend -> Run) :
  outcome r = Returned FINISHED -> and_then r k = k (final r).
Proof. intros H. unfold and_then. now rewrite H. Qed.

Lemma app_one_nonempty {A : Type} (l : list A) (x : A) : (l ++ [x])%list <> [].
Proof. destruct l; discriminate. Qed.

(** One run on a custom shape, up to the call for the mirror
    expression. *)
Lemma custom_add_run (nested : Props -> Blend -> Run) (self : Props) (st : Blend) :
  new_exp_index self = (-1)%Z -> custom_shape self = true ->
  mirror_name_overwrite self = "" ->
  let l := faceit_expression_list st in
  let n := List.length l in
  let final_name := get_expression_name_double_entries (expression_name self) l in
  let side0 := if negb (poll_side_in_expression_name (side self) (expression_name self))
               then "N" else side self in
  let item := custom_expression final_name (side self) n
                                (get_mirror_name side0 final_name) (procedural self) in
  exists st1,
    faceit_expression_list st1 = (l ++ [item])%list
    /\ execute_with nested self st
       = and_then
           (if auto_mirror self && negb (String.eqb side0 "N")
            then nested (mkProps (get_mirror_name side0 final_name) (-1)%Z ""
                                 (opposite_side side0) true false (procedural self))
                        st1
            else finished st1)
           (fun st' =>
              finish (use_keyframe_insert_auto st) true
                     (with_list_index (Z.of_nat n) st')).
Proof.
  intros Hi Hc Hm l n final_name side0 item.
  unfold execute_with. cbv zeta. rewrite Hi, Hc, Hm.
  cbn [negb Z.eqb Pos.eqb String.eqb mirror_name faceit_expression_list
       with_auto_key set_mirror_name name side frame index corr_shape_key procedural].
  fold l. fold final_name. fold side0.
  match goal with
  | |- context [and_then (if ?c then eye_blinks ?s ?stA else finished ?stA) ?k] =>
      set (r1 := if c then eye_blinks s stA else finished stA);
      assert (E1 : faceit_expression_list (final r1) = (l ++ [item])%list)
        by (subst r1; rewrite optional_eye_blinks_list; reflexivity);
      assert (O1 : outcome r1 = Returned FINISHED)
        by (subst r1; apply optional_eye_blinks_finishes; apply app_one_nonempty)
  end.
  exists (final r1). split; [exact E1|].
  rewrite (and_then_finished r1 _ O1). reflexivity.
Qed.

(** A custom shape without mirror expression: one item, selected. *)
Lemma custom_add_single (nested : Props -> Blend -> Run) (self : Props) (st : Blend) :
  new_exp_index self = (-1)%Z -> custom_shape self = true ->
  mirror_name_overwrite self = "" ->
  let l := faceit_expression_list st in
  let final_name := get_expression_name_double_entries (expression_name self) l in
  let side0 := if negb (poll_side_in_expression_name (side self) (expression_name self))
               then "N" else side self in
  auto_mirror self && negb (String.eqb side0 "N") = false ->
  outcome (execute_with nested self st) = Returned FINISHED
  /\ faceit_expression_list (final (execute_with nested self st))
     = (l ++ [custom_expression final_name (side self) (List.length l)
                                (get_mirror_name side0 final_name) (procedural self)])%list
  /\ faceit_expression_list_index (final (execute_with nested self st))
     = Z.of_nat (List.length l).
Proof.
  intros Hi Hc Hm l final_name side0 Ha.
  destruct (custom_add_run nested self st Hi Hc Hm) as [st1 [E1 ->]].
  fold l final_name side0. rewrite Ha.
  rewrite and_then_finished by reflexivity. cbn [final finished].
  split; [reflexivity|]. split.
  - rewrite finish_list. exact E1.
  - rewrite finish_index. reflexivity.
Qed.


Lemma execute_with_appends (nested : Props -> Blend -> Run) (k : nat) (self : Props) :
  (forall p, appends_at_most k (nested p)) ->
  appends_at_most (S k) (execute_with nested self).
Proof.
  intros Hn st. unfold execute_with. cbv zeta.
  cbn [faceit_expression_list with_auto_key].
  set (l := faceit_expression_list st).
  destruct (new_exp_index self =? -1)%Z; cbn [negb].
  2:{ exists []. rewrite app_nil_r. split; [reflexivity | cbn; lia]. }
  match goal with
  | |- context [mkExpression ?n ?s ?f ?i ?m ?c ?p] =>
      set (item := mkExpression n s f i m c p)
  end.
  destruct (custom_shape self).
  - match goal with
    | |- context [if String.eqb (mirror_name item) EmptyString then ?a else item] =>
        set (item' := if String.eqb (mirror_name item) EmptyString then a else item)
    end.
    rewrite final_and_then.
    match goal with
    | |- context [outcome (if ?c then eye_blinks ?s ?stA else finished ?stA)] =>
        set (r1 := if c then eye_blinks s stA else finished stA);
        assert (E1 : faceit_expression_list (final r1) = (l ++ [item'])%list)
          by (subst r1; rewrite optional_eye_blinks_list; reflexivity)
    end.
    destruct (outcome r1).
    + rewrite final_and_then.
      match goal with
      | |- context [outcome (if ?c then nested ?p ?s else finished ?s)] =>
          set (r2 := if c then nested p s else finished s);
          assert (E2 : exists items,
                     faceit_expression_list (final r2)
                     = (faceit_expression_list (final r1) ++ items)%list
                     /\ (List.length items <= k)%nat)
            by (subst r2; destruct c;
                [apply Hn | exists []; rewrite app_nil_r; split; [reflexivity | cbn; lia]])
      end.
      destruct E2 as [items [E2 Hk]]. rewrite E1 in E2.
      exists (item' :: items). split; [|cbn; lia].
      replace (l ++ item' :: items)%list with ((l ++ [item']) ++ items)%list
        by (rewrite <- app_assoc; reflexivity).
      destruct (outcome r2); [rewrite finish_list|]; exact E2.
    + exists [item']. split; [exact E1 | cbn; lia].
  - exists [item]. split; [|cbn; lia].
    rewrite final_and_then.
    match goal with
    | |- context [outcome (if ?c then eye_blinks ?s ?stA else finished ?stA)] =>
        set (r1 := if c then eye_blinks s stA else finished stA);
        assert (E1 : faceit_expression_list (final r1) = (l ++ [item])%list)
          by (subst r1; rewrite optional_eye_blinks_list; reflexivity)
    end.
    destruct (outcome r1); [rewrite finish_list|]; exact E1.
Qed.

Lemma execute_with_bad_index (nested : Props -> Blend -> Run) (self : Props) (st : Blend) :
  new_exp_index self <> (-1)%Z ->
  execute_with nested self st = raised "UnboundLocalError" (with_auto_key false st).
Proof.
  intros H. unfold execute_with. cbv zeta.
  apply Z.eqb_neq in H. rewrite H. reflexivity.
Qed.

(** X5. The add operator only appends: whatever its properties and the
    session, the items of the list stay as they are, in their places,
    and at most two items (the expression and its mirror expression)
    come after them.  With a [new_exp_index] other than the default -1
    the run fails on the unbound local [index] before anything is
    added. *)
Theorem add_only_appends (self : Props) (st : Blend) :
  exists items,
    faceit_expression_list (final (execute self st))
    = (faceit_expression_list st ++ items)%list
    /\ (List.length items <= 2)%nat
    /\ (new_exp_index self <> (-1)%Z ->
        items = [] /\ outcome (execute self st) = Raised "UnboundLocalError").
Proof.
  assert (H0 : forall p : Props, appends_at_most 0 ((fun _ st => finished st) p)).
  { intros p st'. exists []. rewrite app_nil_r. split; [reflexivity | cbn; lia]. }
  destruct (execute_with_appends
              (execute_with (fun _ st => finished st)) 1 self
              (fun p => execute_with_appends (fun _ st => finished st) 0 p H0) st)
    as [items [E Hk]].
  exists items. split; [exact E|]. split; [exact Hk|].
  intros Hi. unfold execute in E |- *.
  rewrite (execute_with_bad_index _ self st Hi) in E |- *.
  split; [|reflexivity].
  cbn [final raised faceit_expression_list with_auto_key] in E.
  rewrite <- (app_nil_r (faceit_expression_list st)) in E at 1.
  apply app_inv_head in E. now subst items.
Qed.

Lemma get_side_cases (s : string) :
  get_side s = "L" \/ get_side s = "R" \/ get_side s = "N".
Proof.
  unfold get_side.
  destruct (_ || _ || _); [now left|].
  destruct (_ || _ || _); [right; now left | right; now right].
Qed.

(** The side [execute] keeps for a custom shape classified by
    [get_side] is that side. *)
Lemma side_of_get_side (s : string) :
  (if negb (poll_side_in_expression_name (get_side s) s) then "N" else get_side s)
  = get_side s.
Proof.
  unfold get_side, poll_side_in_expression_name.
  destruct (contains "left" (lower s) || endswith (lower s) "_l" || endswith s "L");
    [reflexivity|].
  destruct (contains "right" (lower s) || endswith (lower s) "_r" || endswith s "R");
    reflexivity.
Qed.

Lemma side_enum_valid_get_side (s : string) : side_enum_valid (get_side s) = true.
Proof. destruct (get_side_cases s) as [-> | [-> | ->]]; reflexivity. Qed.

Section FreshNames.

Hypothesis unused_name_kept :
  forall n l, ~ In n (map name l) -> get_expression_name_double_entries n l = n.

(** A custom shape classified by [get_side], added without mirror
    expression under a name the list does not hold. *)
Lemma custom_add_classified (nested : Props -> Blend -> Run)
      (n : string) (p : Procedural) (st : Blend) :
  ~ In n (map name (faceit_expression_list st)) ->
  let r := execute_with nested (mkProps n (-1)%Z "" (get_side n) true false p) st in
  outcome r = Returned FINISHED
  /\ faceit_expression_list (final r)
     = (faceit_expression_list st
          ++ [custom_expression n (get_side n) (List.length (faceit_expression_list st))
                                (get_mirror_name (get_side n) n) p])%list
  /\ faceit_expression_list_index (final r)
     = Z.of_nat (List.length (faceit_expression_list st)).
Proof.
  intros Hn r. subst r.
  pose proof (custom_add_single
                nested
                (mkProps n (-1)%Z "" (get_side n) true false p) st
                eq_refl eq_refl eq_refl eq_refl) as H.
  cbn [expression_name side procedural] in H.
  rewrite (unused_name_kept n _ Hn), side_of_get_side in H. exact H.
Qed.


(** *** Empty expressions from shape keys *)

Lemma add_custom_shape_result (sk : string) (st : Blend) :
  ~ In sk (map name (faceit_expression_list st)) ->
  let r := FACEIT_OT_EmptyExpressionsFromShapeKeys.add_custom_shape
             sk (get_side sk) st in
  outcome r = Returned FINISHED
  /\ faceit_expression_list (final r)
     = (faceit_expression_list st
          ++ shape_key_expressions (List.length (faceit_expression_list st)) [sk])%list.
Proof.
  intros Hn r. subst r.
  unfold FACEIT_OT_EmptyExpressionsFromShapeKeys.add_custom_shape.
  rewrite side_enum_valid_get_side.
  destruct (custom_add_classified
              (execute_with (fun _ st => finished st)) sk NONE st Hn) as (O & L & _).
  split; [exact O | exact L].
Qed.

Lemma shape_key_expressions_app (o : nat) (a b : list string) :
  shape_key_expressions o (a ++ b)
  = (shape_key_expressions o a ++ shape_key_expressions (o + List.length a) b)%list.
Proof.
  revert o; induction a as [|sk a IH]; intros o; cbn [app shape_key_expressions List.length].
  - now rewrite Nat.add_0_r.
  - rewrite IH. cbn [app]. do 3 f_equal. lia.
Qed.

Lemma shape_key_expressions_names (o : nat) (sks : list string) :
  map name (shape_key_expressions o sks) = sks.
Proof.
  revert o; induction sks as [|sk sks IH]; intros o; [reflexivity|].
  cbn [shape_key_expressions map custom_expression name]. now rewrite IH.
Qed.

Lemma shape_key_expressions_length (o : nat) (sks : list string) :
  List.length (shape_key_expressions o sks) = List.length sks.
Proof. rewrite <- (length_map name), shape_key_expressions_names. reflexivity. Qed.

Lemma expression_shape_keys_snoc (done : list string) (sk : string) :
  expression_shape_keys (done ++ [sk])
  = if String.eqb sk "Basis" then expression_shape_keys done
    else (expression_shape_keys done ++ [sk])%list.
Proof.
  unfold expression_shape_keys. rewrite filter_app. cbn [filter].
  destruct (String.eqb sk "Basis"); cbn [negb]; [apply app_nil_r | reflexivity].
Qed.

(** The loop over the shape keys, after the keys [done]. *)
Lemma shape_key_loop (sks done : list string) (st0 : Blend) (r : Run) :
  let l := faceit_expression_list st0 in
  outcome r = Returned FINISHED ->
  faceit_expression_list (final r)
  = (l ++ shape_key_expressions (List.length l) (expression_shape_keys done))%list ->
  NoDup (map name l ++ expression_shape_keys (done ++ sks)) ->
  let r' :=
    fold_left
      (fun r sk =>
         and_then r
           (fun st =>
              if String.eqb sk "Basis" then finished st
              else FACEIT_OT_EmptyExpressionsFromShapeKeys.add_custom_shape
                     sk (get_side sk) st))
      sks r in
  outcome r' = Returned FINISHED
  /\ faceit_expression_list (final r')
     = (l ++ shape_key_expressions (List.length l)
                                   (expression_shape_keys (done ++ sks)))%list.
Proof.
  intros l. revert done r.
  induction sks as [|sk sks IH]; intros done r O L Hd r'; subst r'.
  - cbn [fold_left]. rewrite app_nil_r. auto.
  - cbn [fold_left].
    replace (done ++ sk :: sks)%list with ((done ++ [sk]) ++ sks)%list in *
      by (rewrite <- app_assoc; reflexivity).
    assert (Hstep :
              let r1 := and_then r
                          (fun st =>
                             if String.eqb sk "Basis" then finished st
                             else FACEIT_OT_EmptyExpressionsFromShapeKeys.add_custom_shape
                                    sk (get_side sk) st) in
              outcome r1 = Returned FINISHED
              /\ faceit_expression_list (final r1)
                 = (l ++ shape_key_expressions
                           (List.length l) (expression_shape_keys (done ++ [sk])))%list).
    { cbv zeta. rewrite (and_then_finished _ _ O).
      unfold expression_shape_keys in Hd. rewrite filter_app in Hd.
      fold (expression_shape_keys (done ++ [sk])) in Hd.
      fold (expression_shape_keys sks) in Hd.
      rewrite expression_shape_keys_snoc in Hd |- *.
      destruct (String.eqb sk "Basis"); [split; [reflexivity | exact L]|].
      assert (Hfresh : ~ In sk (map name (faceit_expression_list (final r)))).
      { rewrite L, map_app, shape_key_expressions_names.
        rewrite <- app_assoc in Hd. cbn [app] in Hd. rewrite app_assoc in Hd.
        intros Hin. apply (NoDup_remove_2 _ _ _ Hd), in_or_app. now left. }
      destruct (add_custom_shape_result sk (final r) Hfresh) as [O1 L1].
      split; [exact O1|].
      rewrite L1, L, <- app_assoc, shape_key_expressions_app.
      rewrite length_app, shape_key_expressions_length. reflexivity. }
    destruct Hstep as [O1 L1].
    exact (IH (done ++ [sk])%list _ O1 L1 Hd).
Qed.

(** X7. 'Empty expressions from shape keys' on an object with shape
    keys: when the names of the shape keys other than 'Basis' are new to
    the list and differ from one another, the run finishes and appends
    one custom expression per such shape key, in their order and on the
    next free slots, named after the shape key, on the side [get_side]
    reads from the name and with the mirror name [get_mirror_name] gives
    for that side; no mirror expression is created.  Without object, or
    on an object without shape keys, the run is cancelled with one error
    report and the session is left alone. *)
Theorem empty_expressions_from_shape_keys
        (obj_name : string) (sks : list string) (st : Blend) :
  NoDup (map name (faceit_expression_list st) ++ expression_shape_keys sks) ->
  let obj := FACEIT_OT_EmptyExpressionsFromShapeKeys.mkObject obj_name (Some sks) in
  let bare := FACEIT_OT_EmptyExpressionsFromShapeKeys.mkObject obj_name None in
  (outcome (FACEIT_OT_EmptyExpressionsFromShapeKeys.execute (Some obj) st)
   = Returned FINISHED
   /\ faceit_expression_list
        (final (FACEIT_OT_EmptyExpressionsFromShapeKeys.execute (Some obj) st))
      = (faceit_expression_list st
           ++ shape_key_expressions (List.length (faceit_expression_list st))
                                    (expression_shape_keys sks))%list)
  /\ (outcome (FACEIT_OT_EmptyExpressionsFromShapeKeys.execute (Some bare) st)
      = Returned CANCELLED
      /\ final (FACEIT_OT_EmptyExpressionsFromShapeKeys.execute (Some bare) st) = st
      /\ map fst (reports (FACEIT_OT_EmptyExpressionsFromShapeKeys.execute
                             (Some bare) st))
         = ["ERROR"])
  /\ (outcome (FACEIT_OT_EmptyExpressionsFromShapeKeys.execute None st)
      = Returned CANCELLED
      /\ final (FACEIT_OT_EmptyExpressionsFromShapeKeys.execute None st) = st
      /\ map fst (reports (FACEIT_OT_EmptyExpressionsFromShapeKeys.execute None st))
         = ["ERROR"]).
Proof.
  intros Hd obj bare. split; [|repeat split].
  unfold FACEIT_OT_EmptyExpressionsFromShapeKeys.execute. subst obj.
  cbn [FACEIT_OT_EmptyExpressionsFromShapeKeys.key_blocks].
  destruct (shape_key_loop sks [] st (finished st) eq_refl) as [O L].
  - cbn [final finished expression_shape_keys filter shape_key_expressions].
    now rewrite app_nil_r.
  - exact Hd.
  - cbn [app] in O, L.
    rewrite (and_then_finished _ _ O). split; [reflexivity | exact L].
Qed.

End FreshNames.

End AddMore.


Lemma empty_expressions_from_shape_keys_witness :
  faceit_expression_list
    (final (FACEIT_OT_EmptyExpressionsFromShapeKeys.execute
              (addon := Sample.addon)
              (Some (FACEIT_OT_EmptyExpressionsFromShapeKeys.mkObject
                       "Head" (Some ["Basis"; "browDown_L"; "jawForward"])))
              Samples.two_slots))
  = (faceit_expression_list Samples.two_slots
       ++ [custom_expression "browDown_L" "L" 2 "browDown_R" NONE;
           custom_expression "jawForward" "N" 3 "" NONE])%list.
Proof.
  refine (proj2 (proj1 (empty_expressions_from_shape_keys
                          (addon := Sample.addon) sample_unique_name_kept
                          "Head" ["Basis"; "browDown_L"; "jawForward"]
                          Samples.two_slots _))).
  repeat constructor; simpl; intuition discriminate.
Defined.

(** ** More on moving and removing *)

Section MoveMore.

Import FACEIT_OT_MoveExpressionItem.












(** A move between two valid positions, as one run. *)
Lemma move_run (direction : Direction) (st : Blend) (item neighbour : Expression) :
  let i := faceit_expression_list_index st in
  let add_index := match direction with UP => (-1)%Z | DOWN => 1%Z end in
  let j := (i + add_index)%Z in
  let l := faceit_expression_list st in
  (0 <= i < Z.of_nat (List.length l))%Z ->
  (0 <= j < Z.of_nat (List.length l))%Z ->
  nth_error l (Z.to_nat i) = Some item ->
  nth_error l (Z.to_nat j) = Some neighbour ->
  let move := move_action (frame neighbour) (frame item) (add_index * 10)%Z in
  execute direction st
  = finished
      (with_list_index j
         (with_expression_list
            (swap_slots (Z.to_nat (Z.min i j)) l)
            (with_cc_action
               (option_map
                  (fun cc_action =>
                     shift_cc_curve (name neighbour) (- (add_index * 10))%Z
                       (shift_cc_curve (name item) (add_index * 10)%Z cc_action))
                  (corrective_sk_action st))
               (with_shape_action
                  (option_map move (faceit_shape_action st))
                  (with_ow_action (option_map move (overwrite_shape_action st)) st))))).
Proof.
  intros i add_index j l Hi Hj Hitem Hnb move.
  unfold execute. cbv zeta. fold i l add_index. fold j.
  rewrite (get_in_range l i Hi), Hitem.
  destruct (j =? Z.of_nat (List.length l))%Z eqn:E1; [lia|].
  destruct (j =? -1)%Z eqn:E2; [lia|]. cbn [orb].
  rewrite (get_in_range l j Hj), Hnb.
  rewrite (position_in_range _ i), (position_in_range _ j) by lia.
  pose proof (move_list_steps direction l i item neighbour Hi Hj Hitem Hnb) as Hlist.
  cbv zeta in Hlist. fold add_index in Hlist. fold j in Hlist. rewrite Hlist.
  unfold move_index. rewrite swap_slots_length. fold l. fold add_index. fold j.
  replace (Z.max 0 (Z.min j (Z.of_nat (List.length l) - 1))) with j by lia.
  reflexivity.
Qed.

Lemma swap_slots_nth (k : nat) (l : list Expression) (a b : Expression) :
  nth_error l k = Some a -> nth_error l (S k) = Some b ->
  nth_error (swap_slots k l) k = Some (set_frame (frame a) b)
  /\ nth_error (swap_slots k l) (S k) = Some (set_frame (frame b) a).
Proof.
  revert l; induction k as [|k IH]; intros l Ha Hb.
  - destruct l as [|x [|y l]]; try discriminate.
    injection Ha as ->. injection Hb as ->. split; reflexivity.
  - destruct l as [|x l]; [discriminate|].
    cbn [swap_slots nth_error]. now apply IH.
Qed.

Lemma set_frame_back (a b : Expression) :
  set_frame (frame a) (set_frame (frame b) a) = a.
Proof. destruct a; reflexivity. Qed.


(** X9. The selection follows a moved expression: after a move between
    two valid positions the run has finished, the selected index is the
    neighbour's old position, and the item found there is the moved
    expression with the neighbour's frame, while the neighbour sits on
    the old position with the moved expression's frame; the index still
    satisfies [poll]. *)
Theorem move_selection_follows
        (direction : Direction) (st : Blend) (item neighbour : Expression) :
  let i := faceit_expression_list_index st in
  let j := (i + match direction with UP => (-1)%Z | DOWN => 1%Z end)%Z in
  let l := faceit_expression_list st in
  (0 <= i < Z.of_nat (List.length l))%Z ->
  (0 <= j < Z.of_nat (List.length l))%Z ->
  nth_error l (Z.to_nat i) = Some item ->
  nth_error l (Z.to_nat j) = Some neighbour ->
  let st' := final (execute direction st) in
  outcome (execute direction st) = Returned FINISHED
  /\ faceit_expression_list_index st' = j
  /\ Collection.get (faceit_expression_list st') (faceit_expression_list_index st')
     = Some (set_frame (frame neighbour) item)
  /\ Collection.get (faceit_expression_list st') i
     = Some (set_frame (frame item) neighbour)
  /\ List.length (faceit_expression_list st') = List.length l
  /\ poll st' = true.
Proof.
  intros i j l Hi Hj Hitem Hnb st'. subst st'.
  rewrite (move_run direction st item neighbour Hi Hj Hitem Hnb).
  cbn [outcome final finished faceit_expression_list faceit_expression_list_index
       with_list_index with_expression_list].
  fold i l. fold j.
  assert (Hlen : List.length (swap_slots (Z.to_nat (Z.min i j)) l) = List.length l)
    by apply swap_slots_length.
  split; [reflexivity|]. split; [reflexivity|].
  rewrite !get_in_range by (rewrite Hlen; assumption).
  assert (Hnth : nth_error (swap_slots (Z.to_nat (Z.min i j)) l) (Z.to_nat j)
                 = Some (set_frame (frame neighbour) item)
                 /\ nth_error (swap_slots (Z.to_nat (Z.min i j)) l) (Z.to_nat i)
                    = Some (set_frame (frame item) neighbour)).
  { destruct direction; subst j.
    - replace (Z.to_nat (Z.min i (i + -1))) with (Z.to_nat (i + -1)) by lia.
      replace (Z.to_nat i) with (S (Z.to_nat (i + -1))) in * by lia.
      destruct (swap_slots_nth _ l neighbour item Hnb Hitem) as [H1 H2]. auto.
    - replace (Z.to_nat (Z.min i (i + 1))) with (Z.to_nat i) by lia.
      replace (Z.to_nat (i + 1)) with (S (Z.to_nat i)) in * by lia.
      destruct (swap_slots_nth _ l item neighbour Hitem Hnb) as [H1 H2]. auto. }
  destruct Hnth as [H1 H2].
  split; [exact H1|]. split; [exact H2|]. split; [exact Hlen|].
  unfold poll.
  cbn [faceit_expression_list faceit_expression_list_index
       with_list_index with_expression_list].
  rewrite Hlen. fold l.
  destruct (List.length l) eqn:El; [cbn in Hi; lia|]. cbn [Nat.eqb negb andb].
  apply andb_true_iff. split; [apply Z.leb_le | apply Z.ltb_lt]; lia.
Qed.





End MoveMore.

Lemma move_selection_follows_witness :
  Collection.get
    (faceit_expression_list
       (final (FACEIT_OT_MoveExpressionItem.execute
                 FACEIT_OT_MoveExpressionItem.UP Samples.three_slots)))
    (faceit_expression_list_index
       (final (FACEIT_OT_MoveExpressionItem.execute
                 FACEIT_OT_MoveExpressionItem.UP Samples.three_slots)))
  = Some (Sample.exp "cheek_L" "L" 10).
Proof.
  refine (proj1 (proj2 (proj2 (move_selection_follows
                                 FACEIT_OT_MoveExpressionItem.UP Samples.three_slots
                                 (Sample.exp "cheek_L" "L" 20)
                                 (Sample.exp "jawOpen" "N" 10) _ _ _ _)))).
  - simpl; lia.
  - simpl; lia.
  - reflexivity.
  - reflexivity.
Defined.


Section RemoveMore.
Context {addon : Addon}.






End RemoveMore.


Section AddThenRemove.
Context {addon : Addon}.







End AddThenRemove.


(** ** More on the export *)

Section ExportMore.
Context {addon : Addon}.

Import FACEIT_OT_ExportExpressionsToJson.

Lemma dict_get_set_other {K V : Type} (eqb : K -> K -> bool) (k k' : K) (v : V)
      (d : list (K * V)) :
  (forall a b, eqb a b = true -> a = b) ->
  k' <> k -> dict_get eqb k' (dict_set eqb k v d) = dict_get eqb k' d.
Proof.
  intros Heq Hk. induction d as [|[a b] d IH]; cbn [dict_set dict_get].
  - destruct (eqb k k') eqn:E; [apply Heq in E; congruence | reflexivity].
  - destruct (eqb a k) eqn:E; cbn [dict_get].
    + apply Heq in E. subst a.
      destruct (eqb k k') eqn:E'; [apply Heq in E'; congruence | reflexivity].
    + destruct (eqb a k'); [reflexivity | exact IH].
Qed.

Lemma string_eqb_sound (a b : string) : String.eqb a b = true -> a = b.
Proof. apply String.eqb_eq. Qed.

Lemma Z_eqb_sound (a b : Z) : Z.eqb a b = true -> a = b.
Proof. apply Z.eqb_eq. Qed.

Lemma poll_active_action (st : Blend) :
  poll st = true ->
  faceit_expression_list st <> []
  /\ exists active action,
      rig_action st = Some active /\ actions_get active st = Some action.
Proof.
  unfold poll. intros H. apply andb_true_iff in H as [H1 H2]. split.
  - intros E. rewrite E in H1. discriminate H1.
  - destruct (rig_action st) as [active|]; [|discriminate H2].
    destruct (actions_get active st) as [action|] eqn:Eg; [|discriminate H2].
    exists active, action. split; [reflexivity | exact Eg].
Qed.

Lemma actions_get_auto_key (n : ActionName) (k : bool) (st : Blend) :
  actions_get n (with_auto_key k st) = actions_get n st.
Proof. destruct n; reflexivity. Qed.

(** X13. Under [poll] the export finishes and changes nothing in the
    session but one file: the session afterwards is the one before with
    the data stored under the export path (the given path, with '.face'
    appended unless it ends so); every other file, the expression list,
    the actions and the auto-keying switch are as before.  The
    expressions of the file are those computed from the list. *)
Theorem export_writes_one_file (self : Props) (st : Blend) :
  poll st = true ->
  let r := execute self st in
  exists data,
    outcome r = Returned FINISHED
    /\ final r = with_disk (dict_set String.eqb (export_path self) data (disk st)) st
    /\ file_expressions data = expression_list_data (faceit_expression_list st)
    /\ dict_get String.eqb (export_path self) (disk (final r)) = Some data
    /\ forall p, p <> export_path self ->
                 dict_get String.eqb p (disk (final r))
                 = dict_get String.eqb p (disk st).
Proof.
  intros Hp r. subst r.
  destruct (poll_active_action st Hp) as [_ (active & action & Ha & Hg)].
  unfold execute. cbv zeta.
  replace (rig_action (with_auto_key false st)) with (rig_action st) by reflexivity.
  rewrite Ha, actions_get_auto_key, Hg.
  fold (export_path self).
  eexists. split; [reflexivity|].
  cbn [final finished].
  split; [destruct st; reflexivity|].
  split; [reflexivity|].
  cbn [disk with_auto_key with_disk].
  split; [apply dict_get_set_same|].
  intros p Hne. apply dict_get_set_other; [apply string_eqb_sound | exact Hne].
Qed.

(** *** The expressions of the file *)

Lemma expression_list_data_snoc (l : list Expression) (e : Expression) :
  expression_list_data (l ++ [e])
  = dict_set String.eqb (name e) (snd (export_entry e)) (expression_list_data l).
Proof. unfold expression_list_data. rewrite fold_left_app. reflexivity. Qed.

Lemma dict_set_keys {V : Type} (k : string) (v : V) (d : list (string * V)) (n : string) :
  In n (map fst (dict_set String.eqb k v d)) <-> n = k \/ In n (map fst d).
Proof.
  induction d as [|[a b] d IH]; cbn [dict_set map fst In].
  - intuition.
  - destruct (String.eqb a k) eqn:E; cbn [map fst In].
    + apply String.eqb_eq in E. subst a. intuition.
    + rewrite IH. intuition.
Qed.

Lemma dict_set_NoDup {V : Type} (k : string) (v : V) (d : list (string * V)) :
  NoDup (map fst d) -> NoDup (map fst (dict_set String.eqb k v d)).
Proof.
  induction d as [|[a b] d IH]; intros H; cbn [dict_set map fst].
  - constructor; [intros [] | constructor].
  - cbn [map fst] in H. apply NoDup_cons_iff in H as [Ha Hd].
    destruct (String.eqb a k) eqn:E; cbn [map fst].
    + constructor; assumption.
    + constructor; [|now apply IH].
      rewrite dict_set_keys. intros [-> | Hin]; [|contradiction].
      rewrite String.eqb_refl in E. discriminate E.
Qed.

Lemma last_named_snoc (n : string) (l : list Expression) (e : Expression) :
  last_named n (l ++ [e])
  = if String.eqb (name e) n then Some e else last_named n l.
Proof. unfold last_named. rewrite rev_app_distr. reflexivity. Qed.

(** X14. The 'expressions' object of an exported file has one entry
    per expression name, whatever the list: its keys are the names of
    the list without repetition, and the entry of a name holds the
    mirror name, the side and the procedural value of the last item of
    that name (for 'eyeBlinkLeft' and 'eyeBlinkRight' with NONE replaced
    by EYEBLINKS). An item that shares its name with a later one is not
    exported. *)
Theorem exported_expressions_by_name (l : list Expression) :
  NoDup (map fst (expression_list_data l))
  /\ (forall n, In n (map fst (expression_list_data l)) <-> In n (map name l))
  /\ (forall n, dict_get String.eqb n (expression_list_data l)
                = option_map (fun e => snd (export_entry e)) (last_named n l)).
Proof.
  induction l as [|e l IH] using rev_ind.
  - split; [constructor|]. split; [reflexivity|]. reflexivity.
  - destruct IH as (Hnd & Hkeys & Hget).
    rewrite expression_list_data_snoc. split; [now apply dict_set_NoDup|]. split.
    + intros n. rewrite dict_set_keys, Hkeys, map_app, in_app_iff. cbn [map In].
      intuition.
    + intros n. rewrite last_named_snoc.
      destruct (String.eqb (name e) n) eqn:E.
      * apply String.eqb_eq in E. subst n. cbn [option_map].
        apply dict_get_set_same.
      * rewrite dict_get_set_other; [apply Hget | apply string_eqb_sound |].
        intros ->. rewrite String.eqb_refl in E. discriminate E.
Qed.

(** *** The action of the file *)

Lemma In_dict_set {K V : Type} (eqb : K -> K -> bool) (k k' : K) (v v' : V)
      (d : list (K * V)) :
  (forall a b, eqb a b = true -> a = b) ->
  In (k', v') (dict_set eqb k v d) -> In (k', v') d \/ (k' = k /\ v' = v).
Proof.
  intros Heq. induction d as [|[a b] d IH]; cbn [dict_set]; intros H.
  - destruct H as [[= <- <-] | []]. now right.
  - destruct (eqb a k) eqn:E.
    + destruct H as [[= <- <-] | H]; [right; split; [now apply Heq | reflexivity]|].
      left. now right.
    + destruct H as [H | H]; [left; now left|].
      destruct (IH H) as [H' | H']; [left; now right | now right].
Qed.

Lemma dict_get_In {K V : Type} (eqb : K -> K -> bool) (k : K) (v : V)
      (d : list (K * V)) :
  (forall a b, eqb a b = true -> a = b) ->
  dict_get eqb k d = Some v -> In (k, v) d.
Proof.
  intros Heq. induction d as [|[a b] d IH]; cbn [dict_get]; [discriminate|].
  destruct (eqb a k) eqn:E.
  - intros [= <-]. apply Heq in E. subst a. now left.
  - intros H. right. now apply IH.
Qed.

Lemma dict_set_nonempty {K V : Type} (eqb : K -> K -> bool) (k : K) (v : V)
      (d : list (K * V)) : dict_set eqb k v d <> [].
Proof. destruct d as [|[a b] d]; cbn; [|destruct (eqb a k)]; discriminate. Qed.

Lemma exported_rows_incl (A A' : Action) (dp : string) (i : Z) (rows : list Keyframe) :
  incl A A' -> exported_rows A dp i rows -> exported_rows A' dp i rows.
Proof.
  intros Hi [Hne (fc & Hin & H)]. split; [exact Hne|].
  exists fc. split; [now apply Hi | exact H].
Qed.

Lemma exported_channels_incl (A A' : Action) (dp : string)
      (chans : list (Z * list Keyframe)) :
  incl A A' -> exported_channels A dp chans -> exported_channels A' dp chans.
Proof.
  intros Hi (H1 & H2 & H3 & H4 & H5 & H6). repeat split; try assumption.
  - destruct (H6 i rows H) as [Hne _]. exact Hne.
  - destruct (H6 i rows H) as [_ Hfc].
    destruct Hfc as (fc & Hin & Hrest). exists fc. split; [now apply Hi | exact Hrest].
Qed.

(** The rows the export keeps of one curve. *)
Lemma export_filter (fc : FCurve) (k : Keyframe) :
  In k (if contains "mouth_lock" (data_path fc) then kf_data_to_numpy_array fc
        else
          let kf_data :=
            filter (fun k => negb (negb (co0 k mod 10 =? 0)%Z))
                   (kf_data_to_numpy_array fc) in
          if contains "scale" (data_path fc)
             || contains "rotation_quaternion" (data_path fc)
                && (array_index fc =? 0)%Z
          then filter (fun k => negb (Qeq_bool (co1 k) 1)) kf_data
          else filter (fun k => negb (Qeq_bool (co1 k) 0)) kf_data)
  <-> In k (kf_data_to_numpy_array fc)
      /\ (contains "mouth_lock" (data_path fc) = false ->
          (co0 k mod 10 = 0)%Z
          /\ Qeq_bool (co1 k)
                      (FACEIT_OT_AppendActionToFaceitRig.base_value
                         (data_path fc) (array_index fc))
             = false).
Proof.
  unfold FACEIT_OT_AppendActionToFaceitRig.base_value.
  destruct (contains "mouth_lock" (data_path fc)).
  { split; [intros H; split; [exact H | discriminate] | now intros [H _]]. }
  cbv zeta.
  destruct (contains "scale" (data_path fc)); cbn [orb].
  - rewrite !filter_In, !negb_involutive, negb_true_iff, Z.eqb_eq. intuition.
  - destruct (contains "rotation_quaternion" (data_path fc) && (array_index fc =? 0)%Z);
      rewrite !filter_In, !negb_involutive, negb_true_iff, Z.eqb_eq; intuition.
Qed.

Lemma export_curve_channels (A : Action) (fc : FCurve)
      (action_dict : list (string * list (Z * list Keyframe))) :
  In fc A ->
  (forall dp chans, In (dp, chans) action_dict -> exported_channels A dp chans) ->
  forall dp chans, In (dp, chans) (export_curve action_dict fc) ->
                   exported_channels A dp chans.
Proof.
  intros Hfc Hinv dp chans. unfold export_curve. cbv zeta.
  destruct (contains "DEF-" (data_path fc)) eqn:E1; cbn [orb]; [apply Hinv|].
  destruct (contains "MCH-" (data_path fc)) eqn:E2; cbn [orb]; [apply Hinv|].
  destruct (contains "ORG-" (data_path fc)) eqn:E3; cbn [orb]; [apply Hinv|].
  destruct (contains "influence" (data_path fc)) eqn:E4; [apply Hinv|].
  pose proof (export_filter fc) as Hf. cbv zeta in Hf.
  match type of Hf with
  | forall k, In k ?rows <-> _ => set (kf_data := rows) in *
  end.
  destruct kf_data as [|k0 kf_rest] eqn:Ek; [apply Hinv|]. rewrite <- Ek in *.
  assert (Hrows : exported_rows A (data_path fc) (array_index fc) kf_data).
  { split; [rewrite Ek; discriminate|]. exists fc. repeat split; try assumption;
      apply Hf; assumption. }
  clearbody kf_data.
  destruct (dict_get String.eqb (data_path fc) action_dict) as [dp_dict|] eqn:Eg.
  - intros Hin.
    destruct (In_dict_set _ _ _ _ _ _ string_eqb_sound Hin) as [H | [-> ->]];
      [now apply Hinv|].
    apply dict_get_In in Eg; [|apply string_eqb_sound].
    destruct (Hinv _ _ Eg) as (_ & _ & _ & _ & _ & Hold).
    repeat split; try assumption; try apply dict_set_nonempty.
    + destruct (In_dict_set _ _ _ _ _ _ Z_eqb_sound H) as [H' | [-> ->]];
        [exact (proj1 (Hold _ _ H')) | exact (proj1 Hrows)].
    + destruct (In_dict_set _ _ _ _ _ _ Z_eqb_sound H) as [H' | [-> ->]];
        [exact (proj2 (Hold _ _ H')) | exact (proj2 Hrows)].
  - intros Hin.
    destruct (In_dict_set _ _ _ _ _ _ string_eqb_sound Hin) as [H | [-> ->]];
      [now apply Hinv|].
    repeat split; try assumption; try discriminate.
    + destruct H as [[= <- <-] | []]. exact (proj1 Hrows).
    + destruct H as [[= <- <-] | []]. exact (proj2 Hrows).
Qed.

(** X15. The 'action' object of an exported file holds expression
    poses only: no entry for a path on a 'DEF-', 'MCH-' or 'ORG-' bone
    or on an 'influence', no entry without channel and no channel
    without rows; and the rows of a channel are keys of a curve of the
    exported action on that channel, all of them for a 'mouth_lock' path
    and otherwise exactly those on a frame divisible by 10 whose value
    differs from the rest value of the channel (the value the import
    writes on the frames between the expressions). *)
Theorem exported_action_holds_poses_only
        (action : Action) (dp : string) (chans : list (Z * list Keyframe)) :
  In (dp, chans) (fold_left export_curve action []) ->
  exported_channels action dp chans.
Proof.
  revert dp chans. induction action as [|fc action IH] using rev_ind;
    intros dp chans; [intros []|].
  rewrite fold_left_app. cbn [fold_left].
  apply export_curve_channels; [apply in_or_app; right; now left|].
  intros dp' chans' H.
  apply (exported_channels_incl action); [|now apply IH].
  intros x Hx. apply in_or_app. now left.
Qed.

End ExportMore.

Lemma export_writes_one_file_witness :
  exists data,
    dict_get String.eqb "faces/blink.face"
             (disk (final (FACEIT_OT_ExportExpressionsToJson.execute
                             (addon := Sample.addon)
                             Samples.export_blink Samples.blink)))
    = Some data
    /\ map fst (file_expressions data) = ["eyeBlinkLeft"; "jawOpen"].
Proof.
  destruct (export_writes_one_file (addon := Sample.addon)
              Samples.export_blink Samples.blink eq_refl)
    as [data (_ & _ & He & Hd & _)].
  exists data. split; [exact Hd|]. rewrite He. reflexivity.
Defined.

Lemma exported_action_holds_poses_only_witness :
  @exported_channels
    Sample.addon
    [mkFCurve ("pose.bones[" ++ dquote ++ "jaw_master" ++ dquote ++ "].location")
              1%Z [mkKey 1 0; mkKey 10 0; mkKey 11 0; mkKey 20 (1 # 2); mkKey 21 0]]
    ("pose.bones[" ++ dquote ++ "jaw_master" ++ dquote ++ "].location")
    [(1%Z, [mkKey 20 (1 # 2)])].
Proof.
  apply (exported_action_holds_poses_only (addon := Sample.addon)).
  vm_compute. left. reflexivity.
Defined.

(** ** More on 'Force Zero Frames' *)

Section ZeroMore.
Context {addon : Addon}.

Import FACEIT_OT_ForceZeroFrames.










End ZeroMore.


(** ** More on the import *)

Section ImportMore.
Context {addon : Addon}.

Import FACEIT_OT_AppendActionToFaceitRig.

(** X17. An import asked to APPEND falls back to OVERWRITE when there
    is nothing to append to: with an empty expression list, or with the
    overwrite action or the shape action missing, it ends as the same
    import with the method OVERWRITE does, with the same outcome and the
    same session. *)
Theorem append_falls_back_to_overwrite
        (t : ExpressionsType) (custom : bool) (path : string) (sm : ScaleMethod)
        (asm : AutoScaleMethod) (scale : list Q) (eyes corrective first : bool)
        (st : Blend) :
  faceit_expression_list st = []
  \/ overwrite_shape_action st = None \/ faceit_shape_action st = None ->
  let appended :=
    execute (mkProps t custom APPEND path sm asm scale eyes corrective first) st in
  let overwritten :=
    execute (mkProps t custom OVERWRITE path sm asm scale eyes corrective first) st in
  outcome appended = outcome overwritten /\ final appended = final overwritten.
Proof.
  intros H appended overwritten. subst appended overwritten.
  unfold execute.
  change (scale_new_poses
            (mkProps t custom APPEND path sm asm scale eyes corrective first))
    with (scale_new_poses
            (mkProps t custom OVERWRITE path sm asm scale eyes corrective first)).
  change (mouth_close
            (mkProps t custom APPEND path sm asm scale eyes corrective first))
    with (mouth_close
            (mkProps t custom OVERWRITE path sm asm scale eyes corrective first)).
  cbn [load_custom_path filepath load_method expressions_type scale_method
       first_expression_set apply_existing_corrective_shape_keys].
  destruct (custom && negb (String.eqb (snd (OsPath.splitext path)) ".face"));
    [split; reflexivity|].
  destruct (custom && negb (OsPath.isfile path st)); [split; reflexivity|].
  cbv zeta.
  cbn [faceit_expression_list overwrite_shape_action faceit_shape_action
       with_auto_key].
  assert (Hm : exists r,
             (let '(m, r) :=
                if Nat.eqb (List.length (faceit_expression_list st)) 0
                then (OVERWRITE,
                      [("INFO", "Could not append the expressions, because there are no shapes. Using Overwrite method instead")])
                else (APPEND, []) in
              if negb (is_some (faceit_shape_action st))
                 || negb (is_some (overwrite_shape_action st))
              then (OVERWRITE,
                    (r ++ [("INFO", "Could not append the action, because no Action was found. Using Overwrite method instead")])%list)
              else (m, r)) = (OVERWRITE, r)).
  { destruct H as [H | [H | H]]; rewrite H; cbn [List.length Nat.eqb is_some negb orb].
    - destruct (negb (is_some (faceit_shape_action st))
                || negb (is_some (overwrite_shape_action st))); eauto.
    - rewrite orb_true_r. destruct (Nat.eqb _ _); eauto.
    - destruct (Nat.eqb _ _); eauto. }
  destruct Hm as [r0 ->].
  repeat match goal with
         | |- context [match ?x with _ => _ end] =>
             lazymatch x with
             | context [match _ with _ => _ end] => fail
             | _ => destruct x eqn:?
             end
         end; split; reflexivity.
Qed.

(** *** Loading the expressions of a file *)





Section FreshNames.

Hypothesis unused_name_kept :
  forall n l, ~ In n (map name l) -> get_expression_name_double_entries n l = n.


Lemma imported_names (k : nat) (entries : list (string * ExpressionData)) :
  map name (imported k entries) = map fst entries.
Proof.
  revert k; induction entries as [|[n d] entries IH]; intros k; [reflexivity|].
  cbn [imported map name fst]. now rewrite IH.
Qed.

Lemma imported_app (k : nat) (a b : list (string * ExpressionData)) :
  imported k (a ++ b) = (imported k a ++ imported (k + List.length a) b)%list.
Proof.
  revert k; induction a as [|[n d] a IH]; intros k; cbn [app imported List.length].
  - now rewrite Nat.add_0_r.
  - rewrite IH. cbn [app]. do 3 f_equal. lia.
Qed.




End FreshNames.

(** *** Failing imports *)



End ImportMore.

Lemma append_falls_back_to_overwrite_witness :
  final (FACEIT_OT_AppendActionToFaceitRig.execute
           (addon := Sample.addon)
           (FACEIT_OT_AppendActionToFaceitRig.mkProps
              FACEIT_OT_AppendActionToFaceitRig.ARKIT true
              FACEIT_OT_AppendActionToFaceitRig.APPEND "faces/blink.face"
              FACEIT_OT_AppendActionToFaceitRig.Scale_NONE
              FACEIT_OT_AppendActionToFaceitRig.GLOBAL [1; 1; 1]%Q true true false)
           (with_ow_action
              None (final (FACEIT_OT_ExportExpressionsToJson.execute
                             Samples.export_blink Samples.blink))))
  = final (FACEIT_OT_AppendActionToFaceitRig.execute
             (addon := Sample.addon)
             (FACEIT_OT_AppendActionToFaceitRig.mkProps
                FACEIT_OT_AppendActionToFaceitRig.ARKIT true
                FACEIT_OT_AppendActionToFaceitRig.OVERWRITE "faces/blink.face"
                FACEIT_OT_AppendActionToFaceitRig.Scale_NONE
                FACEIT_OT_AppendActionToFaceitRig.GLOBAL [1; 1; 1]%Q true true false)
             (with_ow_action
                None (final (FACEIT_OT_ExportExpressionsToJson.execute
                               Samples.export_blink Samples.blink)))).
Proof.
  apply (append_falls_back_to_overwrite (addon := Sample.addon)).
  right. left. reflexivity.
Defined.




(** ** Bone paths *)

Section BonePaths.
Context {addon : Addon}.

Import FACEIT_OT_AppendActionToFaceitRig.

Lemma string_app_assoc (a b c : string) : (a ++ b) ++ c = a ++ (b ++ c).
Proof. induction a as [|x a IH]; cbn; [reflexivity | now rewrite IH]. Qed.



Lemma substring_prefix (b rest : string) :
  String.substring 0 (String.length b) (b ++ rest) = b.
Proof.
  induction b as [|c b IH]; cbn [String.length append String.substring].
  - destruct rest; reflexivity.
  - now rewrite IH.
Qed.


Lemma substring_skip (pre s : string) (n : nat) :
  String.substring (String.length pre) n (pre ++ s) = String.substring 0 n s.
Proof. induction pre as [|c pre IH]; [reflexivity | exact IH]. Qed.

(** [s[a:b]] of a string [pre ++ b ++ rest] at the bounds of [b]. *)
Lemma slice_middle (pre b rest : string) :
  slice (pre ++ b ++ rest)
        (Z.of_nat (String.length pre))
        (Z.of_nat (String.length pre) + Z.of_nat (String.length b))
  = b.
Proof.
  unfold slice, slice_bound. rewrite !string_length_app.
  set (np := String.length pre). set (nb := String.length b).
  set (nr := String.length rest).
  destruct (Z.ltb_spec (Z.of_nat np) 0); [lia|].
  destruct (Z.ltb_spec (Z.of_nat np + Z.of_nat nb) 0); [lia|].
  replace (Z.min (Z.of_nat np) (Z.of_nat (np + (nb + nr)))) with (Z.of_nat np) by lia.
  replace (Z.min (Z.of_nat np + Z.of_nat nb) (Z.of_nat (np + (nb + nr))))
    with (Z.of_nat np + Z.of_nat nb)%Z by lia.
  destruct (Z.ltb_spec (Z.of_nat np) (Z.of_nat np + Z.of_nat nb)).
  - replace (Z.to_nat (Z.of_nat np + Z.of_nat nb - Z.of_nat np)) with nb by lia.
    rewrite Nat2Z.id. subst np nb.
    rewrite substring_skip. apply substring_prefix.
  - assert (Hb : nb = 0%nat) by lia. subst nb.
    destruct b; [reflexivity | discriminate Hb].
Qed.





End BonePaths.


(** ** What a custom shape enables *)

Section CustomShapeEnables.
Context {addon : Addon}.

Import FACEIT_OT_AddExpressionItem.





End CustomShapeEnables.


(** ** The path of an exported file *)

Section ExportedPath.
Context {addon : Addon}.

Lemma rfind_from_app (c : ascii) (a b : string) (pos last : Z) :
  OsPath.rfind_from c (a ++ b) pos last
  = OsPath.rfind_from c b (pos + Z.of_nat (String.length a))%Z
                      (OsPath.rfind_from c a pos last).
Proof.
  revert pos last; induction a as [|x a IH]; intros pos last.
  - cbn [append OsPath.rfind_from String.length]. now rewrite Z.add_0_r.
  - cbn [append OsPath.rfind_from String.length]. rewrite IH.
    f_equal. lia.
Qed.

Lemma rfind_from_absent (c : ascii) (s : string) (pos last : Z) :
  contains (String c EmptyString) s = false ->
  OsPath.rfind_from c s pos last = last.
Proof.
  revert pos last; induction s as [|x s IH]; intros pos last H; [reflexivity|].
  cbn [contains startswith] in H. apply orb_false_iff in H as [Hx Hs].
  rewrite andb_true_r in Hx.
  cbn [OsPath.rfind_from]. rewrite Ascii.eqb_sym, Hx. now apply IH.
Qed.

Lemma contains_char_app (c : ascii) (a b : string) :
  contains (String c EmptyString) (a ++ b)
  = contains (String c EmptyString) a || contains (String c EmptyString) b.
Proof.
  induction a as [|x a IH]; cbn [append contains startswith].
  - destruct b; reflexivity.
  - rewrite IH, !andb_true_r.
    destruct (Ascii.eqb c x); [reflexivity|]. cbn [orb]. reflexivity.
Qed.

Lemma endswith_char (s : string) (c : ascii) :
  endswith s (String c EmptyString) = true ->
  exists d, s = d ++ String c EmptyString.
Proof.
  destruct (snoc_cases s) as [-> | [q [x ->]]]; [discriminate|].
  rewrite suffix_snoc. intros H. apply Ascii.eqb_eq in H. subst x. now exists q.
Qed.

(** [os.path.splitext] on a path made of a directory part, a file name
    stem that is not made of dots only, and the extension '.face'. *)
Lemma splitext_face (dir stem : string) :
  dir = "" \/ endswith dir "/" = true ->
  contains "/" stem = false -> OsPath.all_dots stem = false ->
  OsPath.splitext (dir ++ stem ++ ".face") = (dir ++ stem, ".face").
Proof.
  intros Hdir Hsep Hdots. unfold OsPath.splitext. cbv zeta.
  assert (Hdot : OsPath.rfind "." (dir ++ stem ++ ".face")
                 = (Z.of_nat (String.length dir) + Z.of_nat (String.length stem))%Z).
  { unfold OsPath.rfind. rewrite !rfind_from_app. reflexivity. }
  assert (Hslash : OsPath.rfind "/" (dir ++ stem ++ ".face")
                   = (Z.of_nat (String.length dir) - 1)%Z).
  { unfold OsPath.rfind. rewrite rfind_from_app.
    rewrite rfind_from_absent
      by (rewrite contains_char_app, Hsep; reflexivity).
    destruct Hdir as [-> | Hd]; [reflexivity|].
    destruct (endswith_char _ _ Hd) as [d ->].
    rewrite rfind_from_app, string_length_app. cbn. lia. }
  rewrite Hdot, Hslash.
  replace (Z.of_nat (String.length dir) - 1 + 1)%Z
    with (Z.of_nat (String.length dir)) by lia.
  rewrite (slice_middle dir stem ".face"), Hdots.
  destruct (Z.ltb_spec (Z.of_nat (String.length dir) - 1)
                       (Z.of_nat (String.length dir) + Z.of_nat (String.length stem)));
    [|lia].
  cbn [andb negb]. f_equal.
  - pose proof (slice_middle "" (dir ++ stem) ".face") as H0.
    cbn [append String.length Z.of_nat Z.add] in H0.
    rewrite string_length_app, Nat2Z.inj_add in H0.
    rewrite <- string_app_assoc. exact H0.
  - pose proof (slice_middle (dir ++ stem) ".face" "") as H0.
    change (".face" ++ "") with ".face" in H0.
    rewrite <- string_app_assoc.
    rewrite (string_length_app (dir ++ stem) ".face").
    rewrite !string_length_app, !Nat2Z.inj_add in H0.
    rewrite !string_length_app, !Nat2Z.inj_add.
    exact H0.
Qed.

Lemma export_stores_the_file
      (self : FACEIT_OT_ExportExpressionsToJson.Props) (st : Blend) :
  FACEIT_OT_ExportExpressionsToJson.poll st = true ->
  OsPath.isfile (export_path self)
                (final (FACEIT_OT_ExportExpressionsToJson.execute self st))
  = true.
Proof.
  intros Hp. destruct (poll_active_action st Hp) as [_ (active & action & Ha & Hg)].
  unfold FACEIT_OT_ExportExpressionsToJson.execute. cbv zeta.
  replace (rig_action (with_auto_key false st)) with (rig_action st) by reflexivity.
  rewrite Ha, actions_get_auto_key, Hg. fold (export_path self).
  unfold OsPath.isfile. cbn [final finished disk with_auto_key with_disk].
  now rewrite dict_get_set_same.
Qed.

(** X23. The import accepts the file an export has just written, when
    the export path is a directory part (empty, or ending in '/'), a
    file name stem without '/' that is not made of dots only, and
    '.face': the extension [os.path.splitext] finds is '.face', the file
    exists, and the import of that path is not cancelled. *)
Theorem exported_file_passes_the_import_guards
        (exporter : FACEIT_OT_ExportExpressionsToJson.Props)
        (importer : FACEIT_OT_AppendActionToFaceitRig.Props)
        (st : Blend) (dir stem : string) :
  FACEIT_OT_ExportExpressionsToJson.poll st = true ->
  export_path exporter = dir ++ stem ++ ".face" ->
  dir = "" \/ endswith dir "/" = true ->
  contains "/" stem = false -> OsPath.all_dots stem = false ->
  FACEIT_OT_AppendActionToFaceitRig.filepath importer = export_path exporter ->
  let st' := final (FACEIT_OT_ExportExpressionsToJson.execute exporter st) in
  snd (OsPath.splitext (FACEIT_OT_AppendActionToFaceitRig.filepath importer)) = ".face"
  /\ OsPath.isfile (FACEIT_OT_AppendActionToFaceitRig.filepath importer) st' = true
  /\ outcome (FACEIT_OT_AppendActionToFaceitRig.execute importer st')
     <> Returned CANCELLED.
Proof.
  intros Hp Hpath Hdir Hsep Hdots Hfile st'.
  assert (Hext : snd (OsPath.splitext
                        (FACEIT_OT_AppendActionToFaceitRig.filepath importer))
                 = ".face")
    by (rewrite Hfile, Hpath, (splitext_face dir stem Hdir Hsep Hdots); reflexivity).
  assert (Hisfile : OsPath.isfile
                      (FACEIT_OT_AppendActionToFaceitRig.filepath importer) st' = true)
    by (rewrite Hfile; subst st'; now apply export_stores_the_file).
  split; [exact Hext|]. split; [exact Hisfile|].
  unfold FACEIT_OT_AppendActionToFaceitRig.execute.
  rewrite Hext, Hisfile. cbn [String.eqb Ascii.eqb Bool.eqb negb].
  rewrite !andb_false_r. cbv zeta.
  repeat match goal with
         | |- context [match ?x with _ => _ end] =>
             lazymatch x with
             | context [match _ with _ => _ end] => fail
             | _ => destruct x eqn:?
             end
         end; cbn [outcome]; discriminate.
Qed.

End ExportedPath.

Lemma exported_file_passes_the_import_guards_witness :
  outcome (FACEIT_OT_AppendActionToFaceitRig.execute
             (addon := Sample.addon) Samples.import_blink
             (final (FACEIT_OT_ExportExpressionsToJson.execute
                       (addon := Sample.addon) Samples.export_blink Samples.blink)))
  <> Returned CANCELLED.
Proof.
  refine (proj2 (proj2 (exported_file_passes_the_import_guards
                          (addon := Sample.addon)
                          Samples.export_blink Samples.import_blink Samples.blink
                          "faces/" "blink" _ _ _ _ _ _))).
  - reflexivity.
  - reflexivity.
  - right. reflexivity.
  - reflexivity.
  - reflexivity.
  - reflexivity.
Defined.
